(** * System font file lookup: [pptx/text/fonts.py]

    A shallow embedding of the module [pptx.text.fonts] and the properties
    of its font registry ([FontFiles]), its sfnt container reader ([_Font])
    and its binary reader ([_Stream]).

    Conventions of the embedding.
    - The module is Python 2 era code: a [str] is a byte string, so a tag
      unpacked with ['4s'] and the literal ['name'] are values of one type.
      Both are [string] here (a Rocq [string] is a sequence of 8-bit
      characters); raw file contents are [list byte].
    - Python integers are [Z].
    - A raised exception is a value of [exn]; code that can raise returns a
      [result].
    - The file object wrapped by [_Stream] is an explicit state ([pyfile]:
      contents, cursor, closed flag) threaded by the monad [M].
    - A generator is the list of the outcomes of the steps it takes, ending
      with the first exception (table records), or, where it performs system
      calls, a record of the calls made, the items yielded and the exception
      that ended it, if any.
    - The operating system is a [host] record: [sys.platform], the [HOME]
      variable, the working directory, what [os.walk] lists and what
      [open(path, 'rb')] finds. *)

From Stdlib Require Import ZArith Strings.String Strings.Ascii Strings.Byte.
From Stdlib Require Import List Lia Bool.
From stdpp Require Import base option list strings gmap.

Import ListNotations.
Local Open Scope string_scope.
Local Open Scope list_scope.
Local Open Scope Z_scope.

(** ** Python values and exceptions *)

(** A font descriptor: the [(family_name, is_bold, is_italic)] 3-tuple. *)
Abbreviation descriptor := (string * bool * bool)%type.

(** The key a failed dict lookup reports. *)
Inductive pykey : Type :=
| KStr (s : string)
| KFont (d : descriptor).

Inductive exn : Type :=
| OSError (msg : string)
| IOError (detail : string)
| NotImplementedError
| KeyError (key : pykey)
| StructError
| ValueError
| TypeError
| IndexError
| OverflowError
| AttributeError (name : string).

Inductive result (A : Type) : Type :=
| Ok (a : A)
| Raise (e : exn).
Arguments Ok {A} a.
Arguments Raise {A} e.

(** A value produced by [struct.unpack_from]. *)
Inductive pyval : Type :=
| VStr (s : string)
| VInt (z : Z).

(** ** Byte strings *)

Definition byte_val (b : byte) : Z := Z.of_N (Byte.to_N b).

(** Big-endian value of a byte sequence. *)
Definition be_int (bs : list byte) : Z :=
  fold_left (fun acc b => acc * 256 + byte_val b) bs 0.

(** The slice [b[i : i + n]] for [0 <= i], [0 <= n]. *)
Definition slice {A} (l : list A) (i n : nat) : list A := firstn n (skipn i l).

(** [str.lower] on the ASCII range. *)
Definition ascii_lower (c : ascii) : ascii :=
  let n := N_of_ascii c in
  if ((65 <=? n) && (n <=? 90))%N then ascii_of_N (n + 32) else c.

Fixpoint lower (s : string) : string :=
  match s with
  | EmptyString => EmptyString
  | String c r => String (ascii_lower c) (lower r)
  end.

(** [str.startswith] *)
Fixpoint startswith (s p : string) {struct p} : bool :=
  match p with
  | EmptyString => true
  | String a p' =>
      match s with
      | EmptyString => false
      | String b s' => Ascii.eqb a b && startswith s' p'
      end
  end.

Fixpoint endswith_char (s : string) (c : ascii) : bool :=
  match s with
  | EmptyString => false
  | String a EmptyString => Ascii.eqb a c
  | String _ r => endswith_char r c
  end.

(** [str.rfind] of a character: the last index at which it occurs, [-1] when
    it does not. *)
Fixpoint rfind_from (c : ascii) (s : string) (i : Z) : Z :=
  match s with
  | EmptyString => -1
  | String a r =>
      let j := rfind_from c r (i + 1) in
      if 0 <=? j then j else if Ascii.eqb a c then i else -1
  end.

Definition rfind (s : string) (c : ascii) : Z := rfind_from c s 0.

(** ** The [struct] module

    The templates of the program are big-endian (['>']) sequences of
    fixed-size character arrays (['s']), unsigned 16-bit (['H']) and
    unsigned 32-bit (['L']) fields, each with an optional repeat count.
    That fragment is modelled; any other template is reported as
    [struct.error]. *)

Module struct.

Inductive field : Type :=
| Chars (n : nat)
| U16
| U32.

Definition digit_of (c : ascii) : option nat :=
  let n := nat_of_ascii c in
  if ((48 <=? n) && (n <=? 57))%nat then Some (n - 48)%nat else None.

Definition repeat_count (cnt : option nat) : nat := default 1%nat cnt.

Fixpoint parse_items (s : string) (cnt : option nat) : option (list field) :=
  match s with
  | EmptyString => match cnt with None => Some [] | Some _ => None end
  | String c r =>
      match digit_of c with
      | Some d => parse_items r (Some (10 * default 0%nat cnt + d)%nat)
      | None =>
          if Ascii.eqb c "s" then
            cons (Chars (repeat_count cnt)) <$> parse_items r None
          else if Ascii.eqb c "H" then
            app (repeat U16 (repeat_count cnt)) <$> parse_items r None
          else if Ascii.eqb c "L" then
            app (repeat U32 (repeat_count cnt)) <$> parse_items r None
          else None
      end
  end.

Definition parse (template : string) : option (list field) :=
  match template with
  | String c r => if Ascii.eqb c ">" then parse_items r None else None
  | EmptyString => None
  end.

Definition field_size (f : field) : nat :=
  match f with
  | Chars n => n
  | U16 => 2
  | U32 => 4
  end.

Definition fields_size (fs : list field) : nat :=
  fold_right (fun f n => (field_size f + n)%nat) 0%nat fs.

(** [struct.calcsize] *)
Definition calcsize (template : string) : result Z :=
  match parse template with
  | Some fs => Ok (Z.of_nat (fields_size fs))
  | None => Raise StructError
  end.

(** Decoding of a buffer that is long enough. *)
Fixpoint decode (fs : list field) (bs : list byte) : list pyval :=
  match fs with
  | [] => []
  | f :: r =>
      let raw := firstn (field_size f) bs in
      let v := match f with
               | Chars _ => VStr (string_of_list_byte raw)
               | U16 | U32 => VInt (be_int raw)
               end in
      v :: decode r (skipn (field_size f) bs)
  end.

(** [struct.unpack_from(template, buffer, offset)]: a negative offset
    counts from the end of the buffer; the buffer must hold at least
    [calcsize(template)] bytes from the offset on. *)
Definition unpack_from (template : string) (bufr : list byte) (offset : Z)
  : result (list pyval) :=
  match parse template with
  | None => Raise StructError
  | Some fs =>
      let len := Z.of_nat (length bufr) in
      let offset := if offset <? 0 then offset + len else offset in
      if (offset <? 0) || (len - offset <? Z.of_nat (fields_size fs))
      then Raise StructError
      else Ok (decode fs (skipn (Z.to_nat offset) bufr))
  end.

End struct.

(** ** The file object and the monad of stream code *)

Record pyfile : Type := mk_pyfile {
  f_data : list byte;
  f_pos : Z;
  f_closed : bool;
}.

(** A computation over the wrapped file that may raise. *)
Definition M (A : Type) : Type := pyfile -> result A * pyfile.

Definition ret {A} (a : A) : M A := fun s => (Ok a, s).

Definition raise {A} (e : exn) : M A := fun s => (Raise e, s).

Definition bind {A B} (m : M A) (k : A -> M B) : M B :=
  fun s =>
    match m s with
    | (Ok a, s') => k a s'
    | (Raise e, s') => (Raise e, s')
    end.

Definition lift {A} (r : result A) : M A := fun s => (r, s).

Notation "x <- c1 ;; c2" := (bind c1 (fun x => c2))
  (at level 100, c1 at next level, right associativity).
Notation "c1 ;; c2" := (bind c1 (fun _ => c2))
  (at level 100, right associativity).

(** Offsets and lengths reach the file object as signed 64-bit numbers; a
    Python integer outside that range raises [OverflowError]. *)
Definition fits_c_long (z : Z) : bool :=
  (-9223372036854775808 <=? z) && (z <=? 9223372036854775807).

(** [file.seek(offset)]: a closed file raises [ValueError]; an offset that
    is no signed 64-bit number raises [OverflowError]; a negative offset is
    refused by the system and leaves the cursor where it was.  (An offset
    beyond the largest file the file system supports, which the system
    refuses too, is not modelled: the module seeks to 0, to 12 and to the
    32-bit offsets of table records.) *)
Definition file_seek (offset : Z) : M unit :=
  fun s =>
    if f_closed s then (Raise ValueError, s)
    else if negb (fits_c_long offset) then (Raise OverflowError, s)
    else if offset <? 0 then (Raise (IOError "seek"), s)
    else (Ok tt, mk_pyfile (f_data s) offset false).

(** [file.read(length)]: a closed file raises [ValueError]; a length that is
    no signed 64-bit number raises [OverflowError]; otherwise at most
    [length] bytes from the cursor on are returned (all the remaining bytes
    for a negative [length]) and the cursor moves past them.  (The buffer of
    [length] bytes is taken to be allocated: memory is not modelled.) *)
Definition file_read (length : Z) : M (list byte) :=
  fun s =>
    if f_closed s then (Raise ValueError, s)
    else if negb (fits_c_long length) then (Raise OverflowError, s)
    else
      let rest := skipn (Z.to_nat (f_pos s)) (f_data s) in
      let bytes := if length <? 0 then rest else firstn (Z.to_nat length) rest in
      (Ok bytes, mk_pyfile (f_data s) (f_pos s + Z.of_nat (List.length bytes)) false).

Definition file_close : M unit :=
  fun s => (Ok tt, mk_pyfile (f_data s) (f_pos s) true).

(** ** [_Stream] *)

Module _Stream.

(** [_Stream.read(offset, length)] *)
Definition read (offset length : Z) : M (list byte) :=
  file_seek offset ;;
  file_read length.

(** [_Stream.read_fields(template, offset=0)] *)
Definition read_fields (template : string) (offset : Z) : M (list pyval) :=
  file_seek offset ;;
  size <- lift (struct.calcsize template) ;;
  bufr <- file_read size ;;
  lift (struct.unpack_from template bufr 0).

Definition close : M unit := file_close.

End _Stream.

(** ** [os.path] (POSIX flavour)

    The module lists font directories for Darwin only (see
    [_font_directories]); [os.path] is modelled as it is there,
    [posixpath]. *)

Module posixpath.

Definition isabs (s : string) : bool := startswith s "/".

Definition join2 (path b : string) : string :=
  if startswith b "/" then b
  else if String.eqb path "" || endswith_char path "/" then path +:+ b
  else path +:+ "/" +:+ b.

(** [os.path.join(a, *p)] *)
Definition join (a : string) (p : list string) : string :=
  fold_left join2 p a.

(** [str.split('/')] *)
Fixpoint split_slash (s : string) (cur : string) : list string :=
  match s with
  | EmptyString => [cur]
  | String c r =>
      if Ascii.eqb c "/" then cur :: split_slash r ""
      else split_slash r (cur +:+ String c "")
  end.

(** The loop of [normpath] over the components; [new_comps] is kept with
    its last element first. *)
Fixpoint norm_comps (initial_slashes : nat) (comps new_comps : list string)
  : list string :=
  match comps with
  | [] => rev new_comps
  | comp :: rest =>
      if String.eqb comp "" || String.eqb comp "." then
        norm_comps initial_slashes rest new_comps
      else if negb (String.eqb comp "..")
              || (Nat.eqb initial_slashes 0 && bool_decide (new_comps = []))
              || match new_comps with
                 | last :: _ => String.eqb last ".."
                 | [] => false
                 end
      then norm_comps initial_slashes rest (comp :: new_comps)
      else norm_comps initial_slashes rest (tl new_comps)
  end.

Fixpoint join_slash (comps : list string) : string :=
  match comps with
  | [] => ""
  | [c] => c
  | c :: r => c +:+ "/" +:+ join_slash r
  end.

Definition normpath (path : string) : string :=
  if String.eqb path "" then "."
  else
    let initial_slashes : nat :=
      if startswith path "/" then
        if startswith path "//" && negb (startswith path "///")
        then 2%nat else 1%nat
      else 0%nat in
    let comps := norm_comps initial_slashes (split_slash path "") [] in
    let path := join_slash comps in
    let path :=
      match initial_slashes with
      | O => path
      | 1%nat => "/" +:+ path
      | _ => "//" +:+ path
      end in
    if String.eqb path "" then "." else path.

(** [os.path.abspath], with the working directory [cwd]. *)
Definition abspath (cwd path : string) : string :=
  if isabs path then normpath path
  else normpath (join cwd [path]).

(** The loop of [genericpath._splitext] that skips leading dots: is there
    a character other than ['.'] at an index in
    [[filenameIndex, filenameIndex + n)]? *)
Fixpoint has_stem (p : string) (filenameIndex n : nat) : bool :=
  match n with
  | O => false
  | S k =>
      match String.get filenameIndex p with
      | Some c =>
          if Ascii.eqb c "." then has_stem p (S filenameIndex) k else true
      | None => true
      end
  end.

(** [os.path.splitext] *)
Definition splitext (p : string) : string * string :=
  let sepIndex := rfind p "/" in
  let dotIndex := rfind p "." in
  if (sepIndex <? dotIndex)
     && has_stem p (Z.to_nat (sepIndex + 1)) (Z.to_nat (dotIndex - (sepIndex + 1)))
  then (String.substring 0 (Z.to_nat dotIndex) p,
        String.substring (Z.to_nat dotIndex)
          (String.length p - Z.to_nat dotIndex) p)
  else (p, "").

End posixpath.

(** ** The host *)

Record host : Type := mk_host {
  (** [sys.platform] *)
  sys_platform : string;
  (** [os.environ.get('HOME')] *)
  environ_HOME : option string;
  (** [os.getcwd()] *)
  getcwd : string;
  (** [os.walk(directory)]: the [(root, dirs, files)] triples, in the order
      the system lists them, [files] being the names of the entries of
      [root] that are not directories; nothing for a directory that cannot
      be read. *)
  os_walk : string -> list (string * list string * list string);
  (** [open(path, 'rb')]: the contents of the file, if it can be opened. *)
  open_rb : string -> option (list byte);
}.

(** A system call made by the scanner. *)
Inductive event : Type :=
| EvWalk (directory : string)
| EvOpen (path : string)
| EvClose (path : string).

(** ** Generators that make system calls *)

Record gen (A : Type) : Type := mk_gen {
  g_calls : list event;
  g_yields : list A;
  g_exit : option exn;
}.
Arguments mk_gen {A} _ _ _.
Arguments g_calls {A} _.
Arguments g_yields {A} _.
Arguments g_exit {A} _.

Definition gen_done {A} : gen A := mk_gen [] [] None.

(** First [g1], then [g2] unless [g1] ended with an exception. *)
Definition gen_seq {A} (g1 g2 : gen A) : gen A :=
  match g_exit g1 with
  | Some _ => g1
  | None =>
      mk_gen (g_calls g1 ++ g_calls g2) (g_yields g1 ++ g_yields g2) (g_exit g2)
  end.

(** [for x in xs: body] inside a generator. *)
Fixpoint gen_for {X A} (xs : list X) (body : X -> gen A) : gen A :=
  match xs with
  | [] => gen_done
  | x :: rest => gen_seq (body x) (gen_for rest body)
  end.

(** The steps a generator takes, given the outcome each step of its loop
    would have: an exception ends the generator, so the steps after the
    first one that raises are never taken. *)
Fixpoint generate {A} (steps : list (result A)) : list (result A) :=
  match steps with
  | [] => []
  | Ok a :: rest => Ok a :: generate rest
  | Raise e :: _ => [Raise e]
  end.

(** ** Parts the module declares but does not implement

    [_TableFactory], [_NameTable.family_name] and
    [FontFiles._windows_font_directories] have a signature and a docstring
    but only [raise NotImplementedError] for a body, and [_Font] has no
    [is_bold] or [is_italic] attribute yet although [_iter_font_files_in]
    reads both.  The code that calls them is developed over an arbitrary
    implementation of these parts, the class [Decoders]; the instance
    [placeholder] below is what the module holds in their place. *)

Class Decoders : Type := {
  (** the objects [_TableFactory] returns *)
  Table : Type;
  (** [_TableFactory(tag, font_file, offset, length)], reading the stream
      it is handed *)
  _TableFactory : string -> Z -> Z -> M Table;
  (** the attribute [family_name] of a table object *)
  Table_family_name : Table -> M string;
  (** the attributes [is_bold] and [is_italic] of a [_Font] *)
  _Font_is_bold : M bool;
  _Font_is_italic : M bool;
  (** [FontFiles._windows_font_directories()] *)
  _windows_font_directories : host -> result (list string);
}.

(** [_BaseTable.__init__]: a table object holds its tag, offset and length
    (and the stream, which [M] threads). *)
Record _BaseTable : Type := mk_BaseTable {
  _tag : string;
  _offset : Z;
  _length : Z;
}.

(** The bodies the module has for these parts. *)
Definition placeholder : Decoders := {|
  Table := _BaseTable;
  _TableFactory := fun _ _ _ => raise NotImplementedError;
  Table_family_name := fun t =>
    if String.eqb (_tag t) "name" then raise NotImplementedError
    else raise (AttributeError "family_name");
  _Font_is_bold := raise (AttributeError "is_bold");
  _Font_is_italic := raise (AttributeError "is_italic");
  _windows_font_directories := fun _ => Raise NotImplementedError;
|}.

(** The registry: a dict from font descriptor to font file path. *)
Abbreviation registry := (gmap descriptor string).

(** The class attribute [FontFiles._font_files] ([None] until the registry is
    built), with the system calls the process has made so far. *)
Record process : Type := mk_process {
  _font_files : option registry;
  calls : list event;
}.

(** [d[key]] *)
Definition getitem (fonts : registry) (key : descriptor) : result string :=
  match fonts !! key with
  | Some path => Ok path
  | None => Raise (KeyError (KFont key))
  end.

(** [fonts[key] = path] for each yielded pair, in order. *)
Definition store_all (fonts : registry) (pairs : list (descriptor * string))
  : registry :=
  fold_left (fun m kp => <[kp.1 := kp.2]> m) pairs fonts.

Section Fonts.

Context `{D : Decoders}.

(** *** [_Font] *)

(** [_Font._fields] (a lazy property: computed on first use). *)
Definition _fields : M (list pyval) :=
  _Stream.read_fields ">4sHHHH" 0.

(** [_Font._table_count] *)
Definition _table_count : M pyval :=
  fields <- _fields ;;
  match nth_error fields 1 with
  | Some v => ret v
  | None => raise IndexError
  end.

(** [range(count)] *)
Definition range (count : Z) : list Z :=
  map Z.of_nat (seq 0 (Z.to_nat count)).

(** One step of the loop of [_iter_table_records]. *)
Definition table_record_at (bufr : list byte) (i : Z)
  : result (string * Z * Z) :=
  let offset := i * 16 in
  match struct.unpack_from ">4sLLL" bufr offset with
  | Ok [VStr tag; VInt checksum; VInt off; VInt len_] => Ok (tag, off, len_)
  | Ok _ => Raise ValueError
  | Raise e => Raise e
  end.

(** [_Font._iter_table_records]: the outcomes of the steps the generator
    takes; the first step that raises is its last. *)
Definition _iter_table_records : M (list (result (string * Z * Z))) :=
  count <- _table_count ;;
  match count with
  | VInt count =>
      bufr <- _Stream.read 12 (count * 16) ;;
      ret (generate (map (table_record_at bufr) (range count)))
  | VStr _ => raise TypeError
  end.

(** [dict((tag, _TableFactory(tag, stream, off, len_)) for ...)]: the
    factory is called as each record is generated. *)
Fixpoint dict_of_records (steps : list (result (string * Z * Z)))
    (acc : gmap string Table) : M (gmap string Table) :=
  match steps with
  | [] => ret acc
  | Raise e :: _ => raise e
  | Ok (tag, off, len_) :: rest =>
      t <- _TableFactory tag off len_ ;;
      dict_of_records rest (<[tag := t]> acc)
  end.

(** [_Font._tables] (a lazy property). *)
Definition _tables : M (gmap string Table) :=
  steps <- _iter_table_records ;;
  dict_of_records steps ∅.

(** [_Font.family_name] *)
Definition family_name : M string :=
  tables <- _tables ;;
  match tables !! "name" with
  | Some table => Table_family_name table
  | None => raise (KeyError (KStr "name"))
  end.

(** The tuple [(f.family_name, f.is_bold, f.is_italic)]. *)
Definition font_key : M descriptor :=
  name <- family_name ;;
  bold <- _Font_is_bold ;;
  italic <- _Font_is_italic ;;
  ret (name, bold, italic).

(** *** [FontFiles] *)

(** The test [file_ext.lower() not in ('.otf', '.ttf')], negated. *)
Definition is_font_filename (filename : string) : bool :=
  let file_ext := (posixpath.splitext filename).2 in
  bool_decide (lower file_ext ∈ [".otf"; ".ttf"]).

(** The body of the inner loop of [_iter_font_files_in]:
    [with _Font.open(path) as f: yield (...f..., path)]; the stream is
    closed when the [with] block is left, by the next step or by the
    exception. *)
Definition font_file (h : host) (root filename : string)
  : gen (descriptor * string) :=
  if negb (is_font_filename filename) then gen_done
  else
    let path := posixpath.abspath (getcwd h) (posixpath.join root [filename]) in
    match open_rb h path with
    | None => mk_gen [EvOpen path] [] (Some (IOError path))
    | Some data =>
        match (font_key (mk_pyfile data 0 false)).1 with
        | Ok key => mk_gen [EvOpen path; EvClose path] [(key, path)] None
        | Raise e => mk_gen [EvOpen path; EvClose path] [] (Some e)
        end
    end.

(** [FontFiles._iter_font_files_in] *)
Definition _iter_font_files_in (h : host) (directory : string)
  : gen (descriptor * string) :=
  gen_seq (mk_gen [EvWalk directory] [] None)
    (gen_for (os_walk h directory) (fun '(root, dirs, files) =>
       gen_for files (fun filename => font_file h root filename))).

(** [FontFiles._os_x_font_directories] *)
Definition _os_x_font_directories (h : host) : list string :=
  let os_x_font_dirs :=
    ["/Library/Fonts"; "/Network/Library/Fonts"; "/System/Library/Fonts"] in
  match environ_HOME h with
  | Some home =>
      os_x_font_dirs ++
        [posixpath.join home ["Library"; "Fonts"]; posixpath.join home [".fonts"]]
  | None => os_x_font_dirs
  end.

(** [FontFiles._font_directories] *)
Definition _font_directories (h : host) : result (list string) :=
  if startswith (sys_platform h) "darwin" then Ok (_os_x_font_directories h)
  else if startswith (sys_platform h) "win32" then _windows_font_directories h
  else Raise (OSError "unsupported operating system").

(** The loop [for d in ...: for key, path in ...: fonts[key] = path]. *)
Fixpoint populate (h : host) (dirs : list string) (fonts : registry)
  : list event * result registry :=
  match dirs with
  | [] => ([], Ok fonts)
  | d :: rest =>
      let g := _iter_font_files_in h d in
      let fonts := store_all fonts (g_yields g) in
      match g_exit g with
      | Some e => (g_calls g, Raise e)
      | None =>
          let '(evs, r) := populate h rest fonts in (g_calls g ++ evs, r)
      end
  end.

(** [FontFiles._installed_fonts] *)
Definition _installed_fonts (h : host) : list event * result registry :=
  match _font_directories h with
  | Raise e => ([], Raise e)
  | Ok dirs => populate h dirs ∅
  end.

(** [FontFiles.find] *)
Definition find (h : host) (family_name : string) (is_bold is_italic : bool)
    (p : process) : result string * process :=
  match _font_files p with
  | None =>
      match _installed_fonts h with
      | (evs, Ok fonts) =>
          (getitem fonts (family_name, is_bold, is_italic),
           mk_process (Some fonts) (calls p ++ evs))
      | (evs, Raise e) => (Raise e, mk_process None (calls p ++ evs))
      end
  | Some fonts => (getitem fonts (family_name, is_bold, is_italic), p)
  end.

(** *** Vocabulary of the properties *)

(** The directory has a record for [tag]. *)
Definition has_table (records : list (string * Z * Z)) (tag : string) : Prop :=
  exists off len_, (tag, off, len_) ∈ records.

(** [table] is an object the factory returned for a record of [tag]. *)
Definition built_for (records : list (string * Z * Z)) (tag : string)
    (table : Table) : Prop :=
  exists off len_ s0,
    (tag, off, len_) ∈ records /\ (_TableFactory tag off len_ s0).1 = Ok table.

(** What opening the file at [path] and reading its three facts gives. *)
Definition descriptor_of (h : host) (path : string) : result descriptor :=
  match open_rb h path with
  | None => Raise (IOError path)
  | Some data => (font_key (mk_pyfile data 0 false)).1
  end.

(** The pairs the scans of [dirs] yield, in the order of the scans. *)
Definition scanned (h : host) (dirs : list string) : list (descriptor * string) :=
  d ← dirs; g_yields (_iter_font_files_in h d).

(** A series of calls to [find], each on the host as it is at that time. *)
Fixpoint find_each (requests : list (host * descriptor)) (p : process)
  : list (result string) * process :=
  match requests with
  | [] => ([], p)
  | (h, (family_name, is_bold, is_italic)) :: rest =>
      let '(r, p1) := find h family_name is_bold is_italic p in
      let '(rs, pn) := find_each rest p1 in
      (r :: rs, pn)
  end.

End Fonts.

(** ** Read requests *)

(** A read request against a stream: raw bytes, or decoded fields. *)
Inductive request : Type :=
| ReadBytes (offset length : Z)
| ReadFields (template : string) (offset : Z).

Inductive answer : Type :=
| Bytes (bs : list byte)
| Fields (vs : list pyval).

Definition perform (r : request) : M answer :=
  match r with
  | ReadBytes offset length => bs <- _Stream.read offset length ;; ret (Bytes bs)
  | ReadFields template offset =>
      vs <- _Stream.read_fields template offset ;; ret (Fields vs)
  end.

(** ** The sfnt layout in the words of the format description *)

(** The offset table: a 4-byte version tag, then four big-endian 16-bit
    fields, at offset 0. *)
Definition offset_table (data : list byte) : list pyval :=
  [VStr (string_of_list_byte (slice data 0 4));
   VInt (be_int (slice data 4 2));
   VInt (be_int (slice data 6 2));
   VInt (be_int (slice data 8 2));
   VInt (be_int (slice data 10 2))].

(** The second field of the offset table. *)
Definition table_count_field (data : list byte) : Z := be_int (slice data 4 2).

(** The [i]-th 16-byte entry of the table directory, which starts at
    offset 12: tag (4 bytes), checksum (4), offset (4), length (4). *)
Definition directory_entry (data : list byte) (i : nat) : list byte :=
  slice data (12 + 16 * i) 16.

Definition table_record (data : list byte) (i : nat) : string * Z * Z :=
  let entry := directory_entry data i in
  (string_of_list_byte (slice entry 0 4),
   be_int (slice entry 8 4),
   be_int (slice entry 12 4)).

(** The tags of the records a generator run produced before it ended. *)
Fixpoint yielded {A} (steps : list (result A)) : list A :=
  match steps with
  | Ok a :: rest => a :: yielded rest
  | _ => []
  end.

(** The path kept for [key] when the pairs are stored in order: that of the
    last pair with this key. *)
Definition last_scanned (key : descriptor) (pairs : list (descriptor * string))
  : option string :=
  last (snd <$> filter (fun kp => kp.1 = key) pairs).

(** The directories handed to [os.walk]. *)
Fixpoint walked (evs : list event) : list string :=
  match evs with
  | [] => []
  | EvWalk directory :: rest => directory :: walked rest
  | _ :: rest => walked rest
  end.

(** The paths handed to [open]. *)
Fixpoint opened (evs : list event) : list string :=
  match evs with
  | [] => []
  | EvOpen path :: rest => path :: opened rest
  | _ :: rest => opened rest
  end.

(** The [(root, filename)] entries of a walk, in the order of the walk. *)
Definition walk_entries (h : host) (directory : string) : list (string * string) :=
  '(root, _, files) ← os_walk h directory; (fun filename => (root, filename)) <$> files.

(** The path under which the scanner opens and reports an entry. *)
Definition entry_path (h : host) (entry : string * string) : string :=
  posixpath.abspath (getcwd h) (posixpath.join entry.1 [entry.2]).

(** The paths of the streams that were closed. *)
Fixpoint closed (evs : list event) : list string :=
  match evs with
  | [] => []
  | EvClose path :: rest => path :: closed rest
  | _ :: rest => closed rest
  end.

(** Could the file at [path] be opened? *)
Definition opens (h : host) (path : string) : bool :=
  match open_rb h path with
  | Some _ => true
  | None => false
  end.

(** The number of directory entries a file holds in full. *)
Definition complete_entries (data : list byte) : nat :=
  ((length data - 12) / 16)%nat.


(** ** Sample decoders, font files and hosts

    A simple implementation of the unimplemented parts, to run the code on
    concrete font files: the table object records where its table lies, the
    family name is the text of the ['name'] table, and every font is
    regular. *)

Module Fixture.

Definition decoders : Decoders := {|
  Table := _BaseTable;
  _TableFactory := fun tag offset length => ret (mk_BaseTable tag offset length);
  Table_family_name := fun t =>
    bs <- _Stream.read (_offset t) (_length t) ;;
    ret (string_of_list_byte bs);
  _Font_is_bold := ret false;
  _Font_is_italic := ret false;
  _windows_font_directories := fun _ => Ok ["C:/Windows/Fonts"];
|}.

Definition header (count : byte) : list byte :=
  [x00; x01; x00; x00; x00; count; x00; x10; x00; x00; x00; x00]%byte.

Definition entry (tag : string) (offset length : byte) : list byte :=
  list_byte_of_string tag
    ++ [xde; xad; xbe; xef; x00; x00; x00; offset; x00; x00; x00; length]%byte.

(** A font with one table, ['name'], holding the text [Arial]. *)
Definition arial : list byte :=
  header x01 ++ entry "name" x1c x05 ++ list_byte_of_string "Arial".

(** A font with a ['head'] table and no ['name'] table. *)
Definition nameless : list byte :=
  header x01 ++ entry "head" x1c x02 ++ [x00; x00]%byte.

(** A font with an empty table directory. *)
Definition no_tables : list byte := header x00.

(** A file cut short inside its offset table. *)
Definition corrupt : list byte := [x00; x01; x00]%byte.

Definition fresh_stream (data : list byte) : pyfile := mk_pyfile data 0 false.

Definition files (listing : list (string * list byte)) (path : string)
  : option (list byte) :=
  (list_to_map listing : gmap string (list byte)) !! path.

Definition walk_of (tree : list (string * list (string * list string * list string)))
    (directory : string) : list (string * list string * list string) :=
  default [] ((list_to_map tree : gmap string _) !! directory).

(** A Mac with two copies of Arial and a text file in [/Library/Fonts]. *)
Definition mac : host := {|
  sys_platform := "darwin";
  environ_HOME := Some "/Users/u";
  getcwd := "/";
  os_walk := walk_of
    [("/Library/Fonts",
      [("/Library/Fonts", ["Old"], ["Arial.ttf"; "README.txt"]);
       ("/Library/Fonts/Old", [], ["ARIAL.TTF"; ".otf"])])];
  open_rb := files
    [("/Library/Fonts/Arial.ttf", arial);
     ("/Library/Fonts/README.txt", list_byte_of_string "fonts");
     ("/Library/Fonts/Old/ARIAL.TTF", arial);
     ("/Library/Fonts/Old/.otf", corrupt)];
|}.

(** A Mac with a corrupt font file listed before a well-formed one. *)
Definition mac_with_corrupt : host := {|
  sys_platform := "darwin";
  environ_HOME := None;
  getcwd := "/";
  os_walk := walk_of
    [("/Library/Fonts", [("/Library/Fonts", [], ["bad.ttf"; "Arial.ttf"])])];
  open_rb := files
    [("/Library/Fonts/bad.ttf", corrupt); ("/Library/Fonts/Arial.ttf", arial)];
|}.

(** The same directory without the corrupt file. *)
Definition mac_without_corrupt : host := {|
  sys_platform := "darwin";
  environ_HOME := None;
  getcwd := "/";
  os_walk := walk_of
    [("/Library/Fonts", [("/Library/Fonts", [], ["Arial.ttf"])])];
  open_rb := files [("/Library/Fonts/Arial.ttf", arial)];
|}.

(** A Mac with no font files at all. *)
Definition bare_mac : host := {|
  sys_platform := "darwin";
  environ_HOME := None;
  getcwd := "/";
  os_walk := fun _ => [];
  open_rb := fun _ => None;
|}.

Definition linux : host := {|
  sys_platform := "linux2";
  environ_HOME := Some "/home/u";
  getcwd := "/";
  os_walk := fun _ => [];
  open_rb := fun _ => None;
|}.

Definition new_process : process := mk_process None [].

End Fixture.

Module Sample.

(** A font that announces two tables and holds the entry of the first. *)
Definition truncated : list byte :=
  Fixture.header x02 ++ Fixture.entry "head" x2c x02.

(** A font with two ['name'] records. *)
Definition two_names : list byte :=
  Fixture.header x02 ++ Fixture.entry "name" x2c x05 ++ Fixture.entry "name" x31 x04
    ++ list_byte_of_string "ArialBold".

(** A Mac whose font directories hold no font file. *)
Definition fontless_mac : host := {|
  sys_platform := "darwin19";
  environ_HOME := Some "/Users/u/";
  getcwd := "/";
  os_walk := Fixture.walk_of
    [("/Library/Fonts", [("/Library/Fonts", [], ["README.txt"; ".ttf"])])];
  open_rb := Fixture.files [("/Library/Fonts/README.txt", list_byte_of_string "fonts")];
|}.

(** A Mac with a font file that is listed but cannot be opened, in the
    second directory. *)
Definition mac_with_vanished : host := {|
  sys_platform := "darwin";
  environ_HOME := None;
  getcwd := "/";
  os_walk := Fixture.walk_of
    [("/Library/Fonts", [("/Library/Fonts", [], ["Arial.ttf"])]);
     ("/Network/Library/Fonts",
      [("/Network/Library/Fonts", [], ["gone.otf"; "Arial.ttf"])]);
     ("/System/Library/Fonts", [("/System/Library/Fonts", [], ["Arial.ttf"])])];
  open_rb := Fixture.files
    [("/Library/Fonts/Arial.ttf", Fixture.arial);
     ("/Network/Library/Fonts/Arial.ttf", Fixture.arial);
     ("/System/Library/Fonts/Arial.ttf", Fixture.arial)];
|}.

Definition windows : host := {|
  sys_platform := "win32";
  environ_HOME := None;
  getcwd := "/";
  os_walk := fun _ => [];
  open_rb := fun _ => None;
|}.

End Sample.

(** * Examples *)

Example splitext_upper : posixpath.splitext "Arial Bold.TTF" = ("Arial Bold", ".TTF").
Proof. reflexivity. Qed.

Example splitext_dotfile : posixpath.splitext ".ttf" = (".ttf", "").
Proof. reflexivity. Qed.

Example splitext_last_dot : posixpath.splitext "a.ttf.bak" = ("a.ttf", ".bak").
Proof. reflexivity. Qed.

Example abspath_relative :
  posixpath.abspath "/Users/u" (posixpath.join "x/../fonts" ["a.otf"]) = "/Users/u/fonts/a.otf".
Proof. reflexivity. Qed.

Example unpack_header :
  struct.unpack_from ">4sHHHH"
    (list_byte_of_string "OTTO" ++ [x00; x02; x00; x20; x00; x01; x00; x00]%byte) 0
  = Ok [VStr "OTTO"; VInt 2; VInt 32; VInt 1; VInt 0].
Proof. reflexivity. Qed.

Example arial_family_name :
  (family_name (D := Fixture.decoders) (Fixture.fresh_stream Fixture.arial)).1 = Ok "Arial".
Proof. vm_compute. reflexivity. Qed.

Example arial_placeholder :
  (family_name (D := placeholder) (Fixture.fresh_stream Fixture.arial)).1
  = Raise NotImplementedError.
Proof. vm_compute. reflexivity. Qed.

Example mac_registry :
  (_installed_fonts (D := Fixture.decoders) Fixture.mac).2
  = Ok {[ ("Arial", false, false) := "/Library/Fonts/Old/ARIAL.TTF" ]}.
Proof. vm_compute. reflexivity. Qed.

(** * Properties *)

(** ** The binary reader *)

Ltac unfold_stream :=
  unfold perform, _Stream.read, _Stream.read_fields, bind, ret, lift, raise,
    file_seek, file_read in *.

(** Case analysis on the tests a stream operation makes. *)
Ltac stream_cases :=
  repeat first
    [ progress cbn [negb f_closed f_data f_pos fst snd]
    | match goal with
      | |- context [if negb ?b then _ else _] => destruct b
      | |- context [if ?b then _ else _] => destruct b
      | |- context [match ?r with Ok _ => _ | Raise _ => _ end] => destruct r
      end ].

(** A read leaves the contents and the open flag of the file alone. *)
Lemma perform_preserves (r : request) (s : pyfile) :
  f_closed s = false ->
  f_data (perform r s).2 = f_data s /\ f_closed (perform r s).2 = false.
Proof.
  intros Hopen. destruct s as [data pos closed]; cbn [f_closed] in Hopen; subst closed.
  destruct r as [offset len | template offset]; unfold_stream;
    stream_cases; auto.
Qed.

(** What a read returns is decided by the contents of the file and the
    request: the cursor it starts from plays no part. *)
Lemma perform_cursor_free (r : request) (s s' : pyfile) :
  f_data s = f_data s' -> f_closed s = false -> f_closed s' = false ->
  (perform r s).1 = (perform r s').1.
Proof.
  destruct s as [data pos closed], s' as [data' pos' closed']; cbn [f_data f_closed].
  intros -> -> ->.
  destruct r as [offset len | template offset]; unfold_stream;
    stream_cases; reflexivity.
Qed.

(** C9. On an open stream, two read requests (raw bytes or decoded fields,
    each at an absolute offset) return the same values whichever is
    performed first: the cursor one read leaves behind does not show in the
    result of the other. *)
Theorem read_order_independent (s : pyfile) (r1 r2 : request) :
  f_closed s = false ->
  (perform r1 (perform r2 s).2).1 = (perform r1 s).1
  /\ (perform r2 (perform r1 s).2).1 = (perform r2 s).1.
Proof.
  intros Hopen.
  destruct (perform_preserves r1 s Hopen) as [Hd1 Hc1].
  destruct (perform_preserves r2 s Hopen) as [Hd2 Hc2].
  split; apply perform_cursor_free; assumption.
Qed.

Lemma read_order_independent_witness :
  let s := Fixture.fresh_stream Fixture.arial in
  let r1 := ReadFields ">4sHHHH" 0 in
  let r2 := ReadBytes 28 5 in
  f_pos (perform r1 s).2 = 12 /\ f_pos (perform r2 s).2 = 33
  /\ (perform r1 (perform r2 s).2).1 = (perform r1 s).1
  /\ (perform r2 (perform r1 s).2).1 = (perform r2 s).1.
Proof.
  split; [reflexivity |]. split; [reflexivity |].
  apply (read_order_independent (Fixture.fresh_stream Fixture.arial)
           (ReadFields ">4sHHHH" 0) (ReadBytes 28 5)).
  reflexivity.
Defined.

(** ** The sfnt container reader *)

Lemma byte_val_nonneg (b : byte) : 0 <= byte_val b.
Proof. unfold byte_val. lia. Qed.

Lemma be_int_nonneg (bs : list byte) : 0 <= be_int bs.
Proof.
  unfold be_int. enough (H : forall acc, 0 <= acc ->
    0 <= fold_left (fun acc b => acc * 256 + byte_val b) bs acc) by (apply H; lia).
  induction bs as [| b bs IH]; intros acc Hacc; simpl; [assumption |].
  apply IH. pose proof (byte_val_nonneg b). lia.
Qed.

Lemma slice_take {A} (l : list A) (n i k : nat) :
  (i + k <= n)%nat -> slice (take n l) i k = slice l i k.
Proof.
  intros H. unfold slice.
  rewrite skipn_firstn_comm, firstn_firstn. f_equal. lia.
Qed.

Lemma slice_drop {A} (l : list A) (a i k : nat) :
  slice (drop a l) i k = slice l (a + i) k.
Proof. unfold slice. rewrite drop_drop. reflexivity. Qed.

Lemma slice_slice {A} (l : list A) (a n i k : nat) :
  (i + k <= n)%nat -> slice (slice l a n) i k = slice l (a + i) k.
Proof.
  intros H. unfold slice at 2. rewrite slice_take by assumption.
  apply slice_drop.
Qed.

Lemma slice_length {A} (l : list A) (i n : nat) :
  length (slice l i n) = Nat.min n (length l - i).
Proof. unfold slice. rewrite length_take, length_drop. reflexivity. Qed.

Lemma byte_val_bound (b : byte) : byte_val b <= 255.
Proof. unfold byte_val. pose proof (Byte.to_N_bounded b). lia. Qed.

Lemma be_int_bound (bs : list byte) : be_int bs < 256 ^ Z.of_nat (length bs).
Proof.
  unfold be_int.
  enough (H : forall acc, 0 <= acc ->
            fold_left (fun acc b => acc * 256 + byte_val b) bs acc
            < (acc + 1) * 256 ^ Z.of_nat (length bs))
    by (specialize (H 0); lia).
  induction bs as [| b bs IH]; intros acc Hacc.
  - cbn [fold_left length]. change (256 ^ Z.of_nat 0) with 1. lia.
  - cbn [fold_left length]. rewrite Nat2Z.inj_succ, Z.pow_succ_r by lia.
    pose proof (byte_val_nonneg b). pose proof (byte_val_bound b).
    eapply Z.lt_le_trans; [apply IH; lia |].
    assert (0 < 256 ^ Z.of_nat (length bs)) by (apply Z.pow_pos_nonneg; lia).
    nia.
Qed.

Lemma be_int_slice_bound (l : list byte) (i n : nat) :
  0 <= be_int (slice l i n) < 256 ^ Z.of_nat n.
Proof.
  split; [apply be_int_nonneg |].
  eapply Z.lt_le_trans; [apply be_int_bound |].
  apply Z.pow_le_mono_r; [lia |]. rewrite slice_length. lia.
Qed.

Lemma table_count_bound (data : list byte) : 0 <= table_count_field data < 65536.
Proof.
  unfold table_count_field. change 65536 with (256 ^ Z.of_nat 2).
  apply be_int_slice_bound.
Qed.

Lemma fits_c_long_range (z : Z) :
  0 <= z -> z <= 9223372036854775807 -> fits_c_long z = true.
Proof. intros H0 H1. unfold fits_c_long. apply andb_true_intro. split; lia. Qed.

Lemma generate_map_Ok {A B} (f : B -> A) (l : list B) :
  generate (map (fun i => Ok (f i)) l) = map (fun i => Ok (f i)) l.
Proof. induction l as [| x l IH]; [reflexivity |]. cbn [map generate]. congruence. Qed.

Lemma unpack_from_decode (template : string) (fs : list struct.field)
    (bufr : list byte) (offset : Z) :
  struct.parse template = Some fs ->
  0 <= offset ->
  offset + Z.of_nat (struct.fields_size fs) <= Z.of_nat (length bufr) ->
  struct.unpack_from template bufr offset
  = Ok (struct.decode fs (drop (Z.to_nat offset) bufr)).
Proof.
  intros Hparse Hpos Hlen. unfold struct.unpack_from. rewrite Hparse. cbv zeta.
  assert (Hneg : (offset <? 0) = false) by (apply Z.ltb_ge; lia).
  rewrite !Hneg.
  assert (Hshort : (Z.of_nat (length bufr) - offset
                    <? Z.of_nat (struct.fields_size fs)) = false)
    by (apply Z.ltb_ge; lia).
  rewrite Hshort. reflexivity.
Qed.

Lemma decode_offset_table (bs : list byte) :
  struct.decode [struct.Chars 4; struct.U16; struct.U16; struct.U16; struct.U16] bs
  = offset_table bs.
Proof.
  unfold offset_table, slice. cbn [struct.decode struct.field_size].
  rewrite !drop_drop. reflexivity.
Qed.

Lemma decode_directory_entry (bs : list byte) :
  struct.decode [struct.Chars 4; struct.U32; struct.U32; struct.U32] bs
  = [VStr (string_of_list_byte (slice bs 0 4)); VInt (be_int (slice bs 4 4));
     VInt (be_int (slice bs 8 4)); VInt (be_int (slice bs 12 4))].
Proof.
  unfold slice. cbn [struct.decode struct.field_size].
  rewrite !drop_drop. reflexivity.
Qed.

Lemma offset_table_take (data : list byte) :
  offset_table (take 12 data) = offset_table data.
Proof. unfold offset_table. rewrite !slice_take by lia. reflexivity. Qed.

(** A read of a range with non-negative bounds on an open stream. *)
Lemma _Stream_read_spec (s : pyfile) (offset len : Z) :
  f_closed s = false ->
  0 <= offset <= 9223372036854775807 -> 0 <= len <= 9223372036854775807 ->
  _Stream.read offset len s
  = (Ok (slice (f_data s) (Z.to_nat offset) (Z.to_nat len)),
     mk_pyfile (f_data s)
       (offset + Z.of_nat (length (slice (f_data s) (Z.to_nat offset) (Z.to_nat len))))
       false).
Proof.
  destruct s as [data pos closed]; cbn [f_closed f_data]. intros -> Hoff Hlen.
  unfold _Stream.read, bind, file_seek, file_read. cbn [f_closed f_data f_pos].
  assert (Ho : (offset <? 0) = false) by (apply Z.ltb_ge; lia).
  assert (Hl : (len <? 0) = false) by (apply Z.ltb_ge; lia).
  rewrite (fits_c_long_range offset), (fits_c_long_range len) by lia.
  cbn [negb]. rewrite Ho. cbn [f_closed f_data f_pos negb]. rewrite Hl. reflexivity.
Qed.

(** A read of fields on an open stream that holds them. *)
Lemma _Stream_read_fields_spec (s : pyfile) (template : string)
    (fs : list struct.field) (offset : nat) :
  f_closed s = false ->
  struct.parse template = Some fs ->
  Z.of_nat offset <= 9223372036854775807 ->
  Z.of_nat (struct.fields_size fs) <= 9223372036854775807 ->
  (offset + struct.fields_size fs <= length (f_data s))%nat ->
  _Stream.read_fields template (Z.of_nat offset) s
  = (Ok (struct.decode fs (slice (f_data s) offset (struct.fields_size fs))),
     mk_pyfile (f_data s) (Z.of_nat (offset + struct.fields_size fs)) false).
Proof.
  destruct s as [data pos closed]; cbn [f_closed f_data].
  intros -> Hparse Hoff Hsize Hlen.
  unfold _Stream.read_fields, bind, lift, file_seek, file_read, struct.calcsize.
  rewrite Hparse. cbn [f_closed f_data f_pos].
  assert (Ho : (Z.of_nat offset <? 0) = false) by (apply Z.ltb_ge; lia).
  assert (Hl : (Z.of_nat (struct.fields_size fs) <? 0) = false)
    by (apply Z.ltb_ge; lia).
  rewrite (fits_c_long_range (Z.of_nat offset)) by lia.
  cbn [negb]. rewrite Ho. cbn [f_closed f_data f_pos].
  rewrite (fits_c_long_range (Z.of_nat (struct.fields_size fs))) by lia.
  cbn [negb]. rewrite Hl, !Nat2Z.id.
  fold (slice data offset (struct.fields_size fs)).
  assert (Hsl : length (slice data offset (struct.fields_size fs))
                = struct.fields_size fs)
    by (unfold slice; rewrite length_take, length_drop; lia).
  rewrite (unpack_from_decode _ fs _ 0 Hparse) by lia.
  change (Z.to_nat 0) with 0%nat. rewrite drop_0, Hsl.
  repeat f_equal. lia.
Qed.

(** The header read: twelve bytes at offset 0, decoded as the offset table;
    the cursor is left behind the header. *)
Lemma _fields_spec (s : pyfile) :
  f_closed s = false ->
  (12 <= length (f_data s))%nat ->
  _fields s = (Ok (offset_table (f_data s)), mk_pyfile (f_data s) 12 false).
Proof.
  intros Hopen Hlen. unfold _fields.
  rewrite (_Stream_read_fields_spec s _
    [struct.Chars 4; struct.U16; struct.U16; struct.U16; struct.U16] 0 Hopen)
    by (try reflexivity; cbn [struct.fields_size fold_right struct.field_size]; lia).
  rewrite decode_offset_table. unfold slice at 1. rewrite drop_0.
  rewrite offset_table_take. reflexivity.
Qed.

Lemma _table_count_spec (s : pyfile) :
  f_closed s = false ->
  (12 <= length (f_data s))%nat ->
  _table_count s
  = (Ok (VInt (table_count_field (f_data s))), mk_pyfile (f_data s) 12 false).
Proof.
  intros Hopen Hlen. unfold _table_count, bind.
  rewrite _fields_spec by assumption. reflexivity.
Qed.

Lemma table_record_at_spec (data : list byte) (count i : nat) :
  (12 + 16 * count <= length data)%nat -> (i < count)%nat ->
  table_record_at (take (16 * count) (drop 12 data)) (Z.of_nat i)
  = Ok (table_record data i).
Proof.
  intros Hlen Hi. unfold table_record_at.
  rewrite (unpack_from_decode _
    [struct.Chars 4; struct.U32; struct.U32; struct.U32]);
    [| reflexivity | lia |].
  - replace (Z.to_nat (Z.of_nat i * 16)) with (16 * i)%nat by lia.
    rewrite decode_directory_entry.
    unfold table_record, directory_entry.
    rewrite !slice_drop, !slice_take, !slice_drop, !slice_slice by lia.
    repeat f_equal; lia.
  - rewrite length_take, length_drop. simpl. lia.
Qed.

(** The directory read: [count * 16] bytes from offset 12 on, one record per
    16-byte entry. *)
Lemma _iter_table_records_spec (s : pyfile) :
  f_closed s = false ->
  12 + 16 * table_count_field (f_data s) <= Z.of_nat (length (f_data s)) ->
  (_iter_table_records s).1
  = Ok (map (fun i => Ok (table_record (f_data s) i))
          (seq 0 (Z.to_nat (table_count_field (f_data s))))).
Proof.
  intros Hopen Hlen.
  pose proof (table_count_bound (f_data s)) as Hcount.
  unfold _iter_table_records, bind.
  rewrite _table_count_spec by (try assumption; lia).
  set (count := table_count_field (f_data s)) in *.
  rewrite _Stream_read_spec by (try reflexivity; lia).
  cbn [f_data ret fst]. f_equal.
  rewrite <- (generate_map_Ok (table_record (f_data s))). f_equal.
  unfold range. rewrite map_map.
  change (Z.to_nat 12) with 12%nat.
  replace (Z.to_nat (count * 16)) with (16 * Z.to_nat count)%nat by lia.
  apply map_ext_in. intros i Hi. apply in_seq in Hi.
  apply table_record_at_spec; lia.
Qed.

(** C1. On an open font file that holds its offset table and the table
    directory the offset table announces, the parse follows the layout: the
    header is the 12 bytes at offset 0, a 4-byte version tag and four
    big-endian 16-bit fields; the table count is the second field; the
    directory is read from offset 12 on, 16 bytes per table; each entry is
    decoded big-endian as tag, checksum, offset, length and yields the
    record (tag, offset, length), in which the checksum does not appear. *)
Theorem parse_follows_layout (s : pyfile) :
  f_closed s = false ->
  12 + 16 * table_count_field (f_data s) <= Z.of_nat (length (f_data s)) ->
  (_fields s).1 = Ok (offset_table (f_data s))
  /\ (_table_count s).1 = Ok (VInt (table_count_field (f_data s)))
  /\ (_iter_table_records s).1
     = Ok (map (fun i => Ok (table_record (f_data s) i))
             (seq 0 (Z.to_nat (table_count_field (f_data s))))).
Proof.
  intros Hopen Hlen.
  pose proof (be_int_nonneg (slice (f_data s) 4 2)) as Hcount.
  fold (table_count_field (f_data s)) in Hcount.
  assert (Hhdr : (12 <= length (f_data s))%nat) by lia.
  split; [rewrite _fields_spec by assumption; reflexivity |].
  split; [rewrite _table_count_spec by assumption; reflexivity |].
  apply _iter_table_records_spec; assumption.
Qed.

Lemma parse_follows_layout_witness :
  let s := Fixture.fresh_stream Fixture.arial in
  (_fields s).1 = Ok (offset_table (f_data s))
  /\ (_table_count s).1 = Ok (VInt (table_count_field (f_data s)))
  /\ (_iter_table_records s).1
     = Ok (map (fun i => Ok (table_record (f_data s) i))
             (seq 0 (Z.to_nat (table_count_field (f_data s))))).
Proof.
  apply (parse_follows_layout (Fixture.fresh_stream Fixture.arial)).
  - reflexivity.
  - vm_compute. discriminate.
Defined.

Example arial_table_records :
  (_iter_table_records (Fixture.fresh_stream Fixture.arial)).1
  = Ok [Ok ("name", 28, 5)].
Proof. vm_compute. reflexivity. Qed.

(** A file cut short inside its table directory: the complete entries are
    generated, the first incomplete one raises [struct.error]. *)
Example truncated_directory :
  (_iter_table_records
     (Fixture.fresh_stream (Fixture.header x02 ++ Fixture.entry "head" x2c x02))).1
  = Ok [Ok ("head", 44, 2); Raise StructError].
Proof. vm_compute. reflexivity. Qed.

Section Properties.

Context `{D : Decoders}.

(** ** The table map *)

Lemma dict_of_records_ok (steps : list (result (string * Z * Z)))
    (acc tables : gmap string Table) (s s' : pyfile) :
  dict_of_records steps acc s = (Ok tables, s') ->
  exists records,
    steps = map Ok records
    /\ forall tag,
         (~ has_table records tag -> tables !! tag = acc !! tag)
         /\ (has_table records tag ->
             exists table, tables !! tag = Some table /\ built_for records tag table).
Proof.
  revert acc s. induction steps as [| step steps IH]; intros acc s Hrun.
  - simpl in Hrun. injection Hrun as -> _. exists []. split; [reflexivity |].
    intros tag. split; [reflexivity |].
    intros (off & len_ & Hin). inversion Hin.
  - destruct step as [[[tag0 off0] len0] | e]; simpl in Hrun;
      [| discriminate Hrun].
    unfold bind in Hrun.
    destruct (_TableFactory tag0 off0 len0 s) as [[t | e] s1] eqn:Hfac;
      [| discriminate Hrun].
    destruct (IH _ _ Hrun) as (records & -> & Hrec).
    exists ((tag0, off0, len0) :: records). split; [reflexivity |].
    intros tag. destruct (Hrec tag) as [Hout Hin].
    assert (Hmk : built_for ((tag0, off0, len0) :: records) tag0 t).
    { exists off0, len0, s. split; [left | rewrite Hfac; reflexivity]. }
    assert (Hlater : forall table, built_for records tag table ->
              built_for ((tag0, off0, len0) :: records) tag table).
    { intros table (off & len_ & s0 & Hmem & Hb).
      exists off, len_, s0. split; [right; exact Hmem | exact Hb]. }
    assert (Hdec : has_table records tag \/ ~ has_table records tag).
    { destruct (decide (tag ∈ (fun r => r.1.1) <$> records)) as [Hd | Hd].
      - left. apply list_elem_of_fmap in Hd as ([[tg off] len_] & -> & Hmem).
        exists off, len_. exact Hmem.
      - right. intros (off & len_ & Hmem). apply Hd.
        apply list_elem_of_fmap. exists (tag, off, len_). split; [reflexivity | exact Hmem]. }
    split.
    + intros Hno. destruct Hdec as [Hyes | Hnot].
      * exfalso. apply Hno. destruct Hyes as (off & len_ & Hmem).
        exists off, len_. right. exact Hmem.
      * rewrite (Hout Hnot). apply lookup_insert_ne. intros <-.
        apply Hno. exists off0, len0. left.
    + intros Hhas. destruct Hdec as [Hyes | Hnot].
      * destruct (Hin Hyes) as (table & Hl & Hb). exists table. auto.
      * destruct Hhas as (off & len_ & Hmem).
        apply elem_of_cons in Hmem as [Heq | Hmem];
          [| exfalso; apply Hnot; exists off, len_; exact Hmem].
        injection Heq as -> -> ->.
        exists t. split; [| exact Hmk].
        rewrite (Hout Hnot). apply lookup_insert_eq.
Qed.

(** When the table map is built, the generator ran to its end and the
    map has exactly the tags of the directory, each bound to an object the
    factory returned for a record of that tag. *)
Lemma _tables_ok (s s' : pyfile) (tables : gmap string Table) :
  _tables s = (Ok tables, s') ->
  exists records,
    (_iter_table_records s).1 = Ok (map Ok records)
    /\ forall tag,
         (~ has_table records tag -> tables !! tag = None)
         /\ (has_table records tag ->
             exists table, tables !! tag = Some table /\ built_for records tag table).
Proof.
  unfold _tables, bind. intros Hrun.
  destruct (_iter_table_records s) as [[steps | e] s1]; [| discriminate Hrun].
  destruct (dict_of_records_ok _ _ _ _ _ Hrun) as (records & -> & Hrec).
  exists records. split; [reflexivity |].
  intros tag. destruct (Hrec tag) as [Hout Hin]. split; [| exact Hin].
  intros Hno. rewrite (Hout Hno). apply lookup_empty.
Qed.

(** C7, as the code has it.  For a font whose table map is built (the
    directory is read and the factory returns an object for each record): if
    the directory has no
    ['name'] record, [family_name] raises [KeyError] for ['name'], the
    missing-table error; if it has one, [family_name] is the [family_name]
    attribute of the object the factory returned for a ['name'] record. *)
Theorem family_name_needs_name_table (s s' : pyfile) (tables : gmap string Table) :
  _tables s = (Ok tables, s') ->
  exists records,
    (_iter_table_records s).1 = Ok (map Ok records)
    /\ (~ has_table records "name" ->
        family_name s = (Raise (KeyError (KStr "name")), s'))
    /\ (has_table records "name" ->
        exists table,
          built_for records "name" table
          /\ family_name s = Table_family_name table s').
Proof.
  intros Hrun. destruct (_tables_ok _ _ _ Hrun) as (records & Hiter & Hrec).
  exists records. split; [exact Hiter |].
  destruct (Hrec "name") as [Hout Hin].
  unfold family_name, bind. rewrite Hrun. split.
  - intros Hno. rewrite (Hout Hno). reflexivity.
  - intros Hhas. destruct (Hin Hhas) as (table & Hl & Hb).
    exists table. rewrite Hl. auto.
Qed.

(** ** Generators *)

Lemma gen_seq_done_l {A} (g : gen A) : gen_seq gen_done g = g.
Proof. destruct g. reflexivity. Qed.

Lemma gen_seq_done_r {A} (g : gen A) : gen_seq g gen_done = g.
Proof.
  destruct g as [cs ys [e |]]; unfold gen_seq; simpl; [reflexivity |].
  rewrite !app_nil_r. reflexivity.
Qed.

Lemma gen_seq_assoc {A} (g1 g2 g3 : gen A) :
  gen_seq (gen_seq g1 g2) g3 = gen_seq g1 (gen_seq g2 g3).
Proof.
  destruct g1 as [c1 y1 [e1 |]], g2 as [c2 y2 [e2 |]];
    unfold gen_seq; simpl; try reflexivity.
  rewrite !app_assoc. reflexivity.
Qed.

Lemma gen_for_app {X A} (xs1 xs2 : list X) (body : X -> gen A) :
  gen_for (xs1 ++ xs2) body = gen_seq (gen_for xs1 body) (gen_for xs2 body).
Proof.
  induction xs1 as [| x xs1 IH]; simpl.
  - symmetry. apply gen_seq_done_l.
  - rewrite IH. symmetry. apply gen_seq_assoc.
Qed.

(** The nested loops of the scanner are one loop over the entries of the
    walk. *)
Lemma gen_for_nested {A} (triples : list (string * list string * list string))
    (body : string -> string -> gen A) :
  gen_for triples (fun '(root, dirs, files) =>
    gen_for files (fun filename => body root filename))
  = gen_for ('(root, _, files) ← triples; (fun filename => (root, filename)) <$> files)
      (fun entry => body entry.1 entry.2).
Proof.
  induction triples as [| [[root dirs] files] triples IH]; [reflexivity |].
  cbn [gen_for mbind list_bind]. rewrite gen_for_app, <- IH. f_equal.
  clear IH. induction files as [| f files IHf]; [reflexivity |].
  cbn [gen_for fmap list_fmap]. f_equal. exact IHf.
Qed.

Lemma opened_app (evs1 evs2 : list event) :
  opened (evs1 ++ evs2) = opened evs1 ++ opened evs2.
Proof.
  induction evs1 as [| [d | path | path] evs1 IH]; simpl; congruence.
Qed.

Lemma walked_app (evs1 evs2 : list event) :
  walked (evs1 ++ evs2) = walked evs1 ++ walked evs2.
Proof.
  induction evs1 as [| [d | path | path] evs1 IH]; simpl; congruence.
Qed.

(** ** The directory scanner *)

(** A file whose extension is not a font extension: nothing happens. *)
Lemma font_file_skipped (h : host) (root filename : string) :
  is_font_filename filename = false -> font_file h root filename = gen_done.
Proof. intros H. unfold font_file. rewrite H. reflexivity. Qed.

(** A candidate file is opened once; it yields its pair, or ends the
    generator with the exception that opening or reading it raised. *)
Lemma font_file_candidate (h : host) (root filename : string) :
  is_font_filename filename = true ->
  let path := entry_path h (root, filename) in
  let g := font_file h root filename in
  opened (g_calls g) = [path]
  /\ walked (g_calls g) = []
  /\ match descriptor_of h path with
     | Ok key => g_yields g = [(key, path)] /\ g_exit g = None
     | Raise e => g_yields g = [] /\ g_exit g = Some e
     end.
Proof.
  intros H. unfold font_file, descriptor_of, entry_path. rewrite H.
  cbn [negb fst snd].
  destruct (open_rb h _) as [data |]; [| simpl; auto].
  destruct (font_key _).1 as [key | e]; simpl; auto.
Qed.

Lemma _iter_font_files_in_entries (h : host) (directory : string) :
  _iter_font_files_in h directory
  = gen_seq (mk_gen [EvWalk directory] [] None)
      (gen_for (walk_entries h directory) (fun entry => font_file h entry.1 entry.2)).
Proof.
  unfold _iter_font_files_in, walk_entries.
  rewrite (gen_for_nested _ (font_file h)). reflexivity.
Qed.

(** The scan of a list of entries of which every candidate can be read. *)
Lemma scan_all_readable (h : host) (entries : list (string * string)) :
  let candidates := List.filter (fun entry => is_font_filename entry.2) entries in
  (forall entry, entry ∈ candidates ->
     exists key, descriptor_of h (entry_path h entry) = Ok key) ->
  let g := gen_for entries (fun entry => font_file h entry.1 entry.2) in
  opened (g_calls g) = map (entry_path h) candidates
  /\ walked (g_calls g) = []
  /\ Forall2 (fun entry pair =>
                pair.2 = entry_path h entry
                /\ descriptor_of h (entry_path h entry) = Ok pair.1)
       candidates (g_yields g)
  /\ g_exit g = None.
Proof.
  induction entries as [| [root filename] entries IH]; intros candidates Hok g.
  - subst g candidates. simpl. auto using Forall2_nil.
  - subst g candidates. cbn [gen_for List.filter snd fst] in *.
    destruct (is_font_filename filename) eqn:Hext.
    + destruct (font_file_candidate h root filename Hext) as (Hop & Hwk & Hres).
      destruct (Hok (root, filename)) as [key Hkey]; [left |].
      rewrite Hkey in Hres. destruct Hres as [Hy He].
      destruct IH as (IHo & IHw & IHy & IHe).
      { intros entry Hin. apply Hok. right. exact Hin. }
      unfold gen_seq. rewrite He. cbn [g_calls g_yields g_exit].
      rewrite opened_app, walked_app, Hop, Hwk, Hy, IHo, IHw.
      repeat split; try reflexivity; [| exact IHe].
      constructor; [| exact IHy]. simpl. auto.
    + rewrite (font_file_skipped h root filename Hext), gen_seq_done_l.
      apply IH. exact Hok.
Qed.

(** The scan of a list of entries up to the first candidate that cannot be
    read: the pairs of the entries before it are yielded, it is opened, and
    the exception ends the generator; no entry after it is looked at. *)
Lemma scan_first_unreadable (h : host) (pre post : list (string * string))
    (bad : string * string) (e : exn) :
  (forall entry, entry ∈ List.filter (fun entry => is_font_filename entry.2) pre ->
     exists key, descriptor_of h (entry_path h entry) = Ok key) ->
  is_font_filename bad.2 = true ->
  descriptor_of h (entry_path h bad) = Raise e ->
  let body := fun entry : string * string => font_file h entry.1 entry.2 in
  let g := gen_for (pre ++ bad :: post) body in
  g_exit g = Some e
  /\ g_yields g = g_yields (gen_for pre body)
  /\ opened (g_calls g)
     = map (entry_path h) (List.filter (fun entry => is_font_filename entry.2) pre)
       ++ [entry_path h bad]
  /\ walked (g_calls g) = [].
Proof.
  intros Hpre Hext Hbad body g. subst g.
  destruct (scan_all_readable h pre Hpre) as (Hop & Hwk & _ & Hex).
  fold body in Hop, Hwk, Hex.
  destruct bad as [root filename]. cbn [snd] in Hext.
  destruct (font_file_candidate h root filename Hext) as (Hbo & Hbw & Hres).
  rewrite Hbad in Hres. destruct Hres as [Hby Hbe].
  rewrite gen_for_app. cbn [gen_for].
  assert (Hstop : gen_seq (body (root, filename)) (gen_for post body)
                  = font_file h root filename).
  { unfold gen_seq, body. cbn [fst snd]. rewrite Hbe. reflexivity. }
  rewrite Hstop. unfold gen_seq. rewrite Hex. cbn [g_calls g_yields g_exit].
  rewrite opened_app, walked_app, Hop, Hwk, Hbo, Hbw, Hby, Hbe, app_nil_r.
  auto.
Qed.

Lemma font_file_calls (h : host) (root filename : string) :
  walked (g_calls (font_file h root filename)) = []
  /\ forall path, path ∈ opened (g_calls (font_file h root filename)) ->
       is_font_filename filename = true /\ path = entry_path h (root, filename).
Proof.
  destruct (is_font_filename filename) eqn:Hext.
  - destruct (font_file_candidate h root filename Hext) as (Hop & Hwk & _).
    split; [exact Hwk |]. intros path Hin. rewrite Hop in Hin.
    apply list_elem_of_singleton in Hin. auto.
  - rewrite (font_file_skipped h root filename Hext). simpl.
    split; [reflexivity |]. intros path Hin. inversion Hin.
Qed.

Lemma gen_seq_calls {A} (g1 g2 : gen A) (ev : event) :
  ev ∈ g_calls (gen_seq g1 g2) -> ev ∈ g_calls g1 \/ ev ∈ g_calls g2.
Proof.
  unfold gen_seq. destruct (g_exit g1); simpl; [auto |].
  intros Hin. apply elem_of_app in Hin. exact Hin.
Qed.

Lemma opened_elem (evs : list event) (path : string) :
  path ∈ opened evs <-> EvOpen path ∈ evs.
Proof.
  induction evs as [| [d | q | q] evs IH]; simpl.
  - split; intros H; inversion H.
  - rewrite IH, elem_of_cons. split; [auto | intros [H | H]; [discriminate H | exact H]].
  - rewrite !elem_of_cons, IH. split; (intros [H | H]; [left; congruence | auto]).
  - rewrite IH, elem_of_cons. split; [auto | intros [H | H]; [discriminate H | exact H]].
Qed.

Lemma walked_elem (evs : list event) (d : string) :
  d ∈ walked evs <-> EvWalk d ∈ evs.
Proof.
  induction evs as [| [d' | q | q] evs IH]; simpl.
  - split; intros H; inversion H.
  - rewrite !elem_of_cons, IH. split; (intros [H | H]; [left; congruence | auto]).
  - rewrite IH, elem_of_cons. split; [auto | intros [H | H]; [discriminate H | exact H]].
  - rewrite IH, elem_of_cons. split; [auto | intros [H | H]; [discriminate H | exact H]].
Qed.

(** Whatever happens, only candidate files are opened, and the loop over
    the entries walks no directory. *)
Lemma scan_opens_candidates_only (h : host) (entries : list (string * string)) :
  let g := gen_for entries (fun entry => font_file h entry.1 entry.2) in
  walked (g_calls g) = []
  /\ forall path, path ∈ opened (g_calls g) ->
       exists entry,
         entry ∈ List.filter (fun entry => is_font_filename entry.2) entries
         /\ path = entry_path h entry.
Proof.
  induction entries as [| [root filename] entries IH]; cbn zeta.
  - simpl. split; [reflexivity |]. intros path H. inversion H.
  - cbn [gen_for fst snd List.filter].
    destruct (font_file_calls h root filename) as [Hw Ho].
    destruct IH as [IHw IHo]. split.
    + unfold gen_seq. destruct (g_exit _); cbn [g_calls]; [exact Hw |].
      rewrite walked_app, Hw, IHw. reflexivity.
    + intros path Hin. apply opened_elem in Hin.
      apply gen_seq_calls in Hin as [Hin | Hin]; apply opened_elem in Hin.
      * destruct (Ho path Hin) as [Hext ->]. rewrite Hext.
        exists (root, filename). split; [left | reflexivity].
      * destruct (IHo path Hin) as (entry & Hmem & ->).
        exists entry. split; [| reflexivity].
        destruct (is_font_filename filename); [right |]; exact Hmem.
Qed.

Lemma _iter_font_files_in_walked (h : host) (directory : string) :
  walked (g_calls (_iter_font_files_in h directory)) = [directory].
Proof.
  rewrite _iter_font_files_in_entries. unfold gen_seq. cbn [g_exit g_calls].
  rewrite walked_app. cbn [walked].
  rewrite (proj1 (scan_opens_candidates_only h (walk_entries h directory))).
  reflexivity.
Qed.

(** ** Absolute paths *)

Lemma startswith_slash (s : string) :
  startswith s "/" = true <-> exists r, s = String "/" r.
Proof.
  destruct s as [| c r]; cbn [startswith].
  - split; [discriminate | intros [r H]; discriminate H].
  - rewrite andb_true_r. destruct (Ascii.eqb_spec "/" c) as [<- | Hne].
    + split; [eauto | reflexivity].
    + split; [discriminate | intros [r' H]; congruence].
Qed.

Lemma normpath_absolute (path : string) :
  posixpath.isabs path = true -> posixpath.isabs (posixpath.normpath path) = true.
Proof.
  unfold posixpath.isabs. intros Habs.
  destruct (proj1 (startswith_slash path) Habs) as [r ->].
  unfold posixpath.normpath. rewrite Habs. cbn [String.eqb Ascii.eqb].
  change (String.eqb (String "/" r) "") with false. cbv iota.
  destruct (startswith (String "/" r) "//" && negb (startswith (String "/" r) "///"));
    reflexivity.
Qed.

Lemma abspath_absolute (cwd path : string) :
  posixpath.isabs cwd = true -> posixpath.isabs (posixpath.abspath cwd path) = true.
Proof.
  intros Hcwd. unfold posixpath.abspath.
  destruct (posixpath.isabs path) eqn:Hpath; apply normpath_absolute; [exact Hpath |].
  unfold posixpath.isabs in *.
  destruct (proj1 (startswith_slash cwd) Hcwd) as [r ->].
  unfold posixpath.join, posixpath.join2. cbn [fold_left]. rewrite Hpath.
  destruct (String.eqb _ "" || endswith_char _ "/"); reflexivity.
Qed.

(** C8, as the code has it.  In every directory tree the scanner walks,
    only files whose extension is ['.otf'] or ['.ttf'], compared without regard to case, are
    ever opened, under an absolute path; files with any other extension are
    passed over unopened.  When each of these candidates can be opened and
    read, all of them are opened, in the order of the walk, and exactly
    their (descriptor, path) pairs are yielded. *)
Theorem scanner_selects_font_files (h : host) (directory : string) :
  posixpath.isabs (getcwd h) = true ->
  let g := _iter_font_files_in h directory in
  let candidates :=
    List.filter (fun entry => is_font_filename entry.2) (walk_entries h directory) in
  (forall path, path ∈ opened (g_calls g) ->
     exists entry, entry ∈ candidates /\ path = entry_path h entry)
  /\ (forall entry, posixpath.isabs (entry_path h entry) = true)
  /\ ((forall entry, entry ∈ candidates ->
         exists key, descriptor_of h (entry_path h entry) = Ok key) ->
      opened (g_calls g) = map (entry_path h) candidates
      /\ Forall2 (fun entry pair =>
                    pair.2 = entry_path h entry
                    /\ descriptor_of h (entry_path h entry) = Ok pair.1)
           candidates (g_yields g)
      /\ g_exit g = None).
Proof.
  intros Hcwd g candidates. subst g candidates.
  rewrite _iter_font_files_in_entries.
  set (body := fun entry : string * string => font_file h entry.1 entry.2).
  assert (Hshape : forall g0 : gen (descriptor * string),
            opened (g_calls (gen_seq (mk_gen [EvWalk directory] [] None) g0))
            = opened (g_calls g0)
            /\ g_yields (gen_seq (mk_gen [EvWalk directory] [] None) g0) = g_yields g0
            /\ g_exit (gen_seq (mk_gen [EvWalk directory] [] None) g0) = g_exit g0).
  { intros g0. unfold gen_seq. cbn [g_exit g_calls g_yields]. auto. }
  destruct (Hshape (gen_for (walk_entries h directory) body)) as (-> & -> & ->).
  split; [| split].
  - apply (proj2 (scan_opens_candidates_only h (walk_entries h directory))).
  - intros entry. apply abspath_absolute. exact Hcwd.
  - intros Hok.
    destruct (scan_all_readable h (walk_entries h directory) Hok)
      as (Hop & _ & Hy & He).
    auto.
Qed.

(** C4, as the code has it.  When a candidate file cannot be opened or
    read, the exception is not caught: the scan of its directory ends with
    that exception, after yielding the pairs of the files before it and
    without opening any file after it. *)
Theorem unreadable_font_ends_scan (h : host) (directory : string)
    (pre post : list (string * string)) (bad : string * string) (e : exn) :
  walk_entries h directory = pre ++ bad :: post ->
  (forall entry, entry ∈ List.filter (fun entry => is_font_filename entry.2) pre ->
     exists key, descriptor_of h (entry_path h entry) = Ok key) ->
  is_font_filename bad.2 = true ->
  descriptor_of h (entry_path h bad) = Raise e ->
  let g := _iter_font_files_in h directory in
  g_exit g = Some e
  /\ g_yields g = g_yields (gen_for pre (fun entry => font_file h entry.1 entry.2))
  /\ opened (g_calls g)
     = map (entry_path h) (List.filter (fun entry => is_font_filename entry.2) pre)
       ++ [entry_path h bad].
Proof.
  intros Hwalk Hpre Hext Hbad g. subst g.
  rewrite _iter_font_files_in_entries, Hwalk.
  destruct (scan_first_unreadable h pre post bad e Hpre Hext Hbad)
    as (He & Hy & Ho & _).
  unfold gen_seq at 1 2 3. cbn [g_exit g_calls g_yields app opened].
  auto.
Qed.

(** ** The registry *)

Lemma store_all_app (fonts : registry) (ps1 ps2 : list (descriptor * string)) :
  store_all fonts (ps1 ++ ps2) = store_all (store_all fonts ps1) ps2.
Proof. unfold store_all. apply fold_left_app. Qed.

Lemma last_cons {A} (x : A) (l : list A) :
  last (x :: l) = Some (default x (last l)).
Proof.
  revert x. induction l as [| y l IH]; intros x; [reflexivity |].
  change (last (x :: y :: l)) with (last (y :: l)).
  rewrite IH. destruct l; reflexivity.
Qed.

Lemma last_scanned_cons (key k : descriptor) (path : string)
    (pairs : list (descriptor * string)) :
  last_scanned key ((k, path) :: pairs)
  = if decide (k = key) then Some (default path (last_scanned key pairs))
    else last_scanned key pairs.
Proof.
  unfold last_scanned. rewrite filter_cons. cbn [fst].
  destruct (decide (k = key)); [| reflexivity].
  rewrite fmap_cons. apply last_cons.
Qed.

(** After the pairs are stored in order, a key is bound to the path of the
    last pair that has it, and keeps its former binding if no pair has it. *)
Lemma store_all_lookup (pairs : list (descriptor * string)) (fonts : registry)
    (key : descriptor) :
  store_all fonts pairs !! key
  = match last_scanned key pairs with
    | Some path => Some path
    | None => fonts !! key
    end.
Proof.
  revert fonts. induction pairs as [| [k path] pairs IH]; intros fonts.
  - reflexivity.
  - change (store_all fonts ((k, path) :: pairs))
      with (store_all (<[k := path]> fonts) pairs).
    rewrite IH, last_scanned_cons.
    destruct (decide (k = key)) as [-> | Hne].
    + destruct (last_scanned key pairs); [reflexivity |].
      apply lookup_insert_eq.
    + destruct (last_scanned key pairs); [reflexivity |].
      apply lookup_insert_ne. exact Hne.
Qed.

Lemma filter_key_absent (key : descriptor) (pairs : list (descriptor * string)) :
  (forall p, (key, p) ∉ pairs) ->
  filter (fun kp : descriptor * string => kp.1 = key) pairs = [].
Proof.
  induction pairs as [| [k p] pairs IH]; intros Habs; [reflexivity |].
  rewrite filter_cons. cbn [fst].
  destruct (decide (k = key)) as [-> | Hne].
  - exfalso. apply (Habs p). left.
  - apply IH. intros q Hin. apply (Habs q). right. exact Hin.
Qed.

Lemma last_scanned_absent (key : descriptor) (pairs : list (descriptor * string)) :
  (forall p, (key, p) ∉ pairs) -> last_scanned key pairs = None.
Proof.
  intros Habs. unfold last_scanned. rewrite filter_key_absent by exact Habs.
  reflexivity.
Qed.

Lemma last_scanned_last (key : descriptor) (path : string)
    (pre post : list (descriptor * string)) :
  (forall p, (key, p) ∉ post) ->
  last_scanned key (pre ++ (key, path) :: post) = Some path.
Proof.
  intros Hpost. unfold last_scanned.
  rewrite filter_app, filter_cons. cbn [fst].
  destruct (decide (key = key)) as [_ | Hne]; [| congruence].
  rewrite (filter_key_absent key post Hpost).
  rewrite fmap_app, fmap_cons, fmap_nil. cbn [snd].
  apply last_snoc.
Qed.

(** A build that succeeds has walked every directory, in order, none of the
    scans raised, and the registry holds the pairs stored in the order they
    were scanned. *)
Lemma populate_ok (h : host) (dirs : list string) (fonts fonts' : registry)
    (evs : list event) :
  populate h dirs fonts = (evs, Ok fonts') ->
  fonts' = store_all fonts (scanned h dirs)
  /\ walked evs = dirs
  /\ forall d, d ∈ dirs -> g_exit (_iter_font_files_in h d) = None.
Proof.
  revert fonts evs. induction dirs as [| d dirs IH]; intros fonts evs Hrun.
  - simpl in Hrun. injection Hrun as <- <-.
    repeat split. intros d Hin. inversion Hin.
  - cbn [populate] in Hrun.
    destruct (g_exit (_iter_font_files_in h d)) as [e |] eqn:Hexit;
      [discriminate Hrun |].
    destruct (populate h dirs _) as [evs1 r] eqn:Hrest.
    injection Hrun as <- ->.
    destruct (IH _ _ Hrest) as (-> & Hw & Hnone).
    split; [| split].
    + unfold scanned. cbn [mbind list_bind]. rewrite store_all_app. reflexivity.
    + change (walked (g_calls (_iter_font_files_in h d) ++ evs1) = d :: dirs).
      rewrite walked_app, _iter_font_files_in_walked, Hw. reflexivity.
    + intros d' Hin. apply elem_of_cons in Hin as [-> | Hin]; auto.
Qed.

(** A build stops at the first directory whose scan raises. *)
Lemma populate_raises (h : host) (dirs1 dirs2 : list string) (d : string)
    (fonts : registry) (e : exn) :
  (forall d', d' ∈ dirs1 -> g_exit (_iter_font_files_in h d') = None) ->
  g_exit (_iter_font_files_in h d) = Some e ->
  (populate h (dirs1 ++ d :: dirs2) fonts).2 = Raise e
  /\ walked (populate h (dirs1 ++ d :: dirs2) fonts).1 = dirs1 ++ [d].
Proof.
  revert fonts. induction dirs1 as [| d1 dirs1 IH]; intros fonts Hnone Hexit.
  - cbn [app populate]. rewrite Hexit. cbn [fst snd].
    rewrite _iter_font_files_in_walked. auto.
  - cbn [app populate]. rewrite (Hnone d1) by left.
    destruct (IH (store_all fonts (g_yields (_iter_font_files_in h d1))))
      as [Hr Hw]; [intros d' Hin; apply Hnone; right; exact Hin | exact Hexit |].
    destruct (populate h (dirs1 ++ d :: dirs2) _) as [evs r].
    cbn [fst snd] in *. subst r.
    rewrite walked_app, _iter_font_files_in_walked, Hw. auto.
Qed.

(** C3. When the registry is built, each descriptor is bound to one path,
    that of the last scanned file that yielded it: a later file with the
    same descriptor overwrites the earlier entry, and a descriptor no file
    yielded has no entry. *)
Theorem last_scanned_file_wins (h : host) (fonts : registry) :
  (_installed_fonts h).2 = Ok fonts ->
  exists dirs,
    _font_directories h = Ok dirs
    /\ (forall key, fonts !! key = last_scanned key (scanned h dirs))
    /\ (forall key path pre post,
          scanned h dirs = pre ++ (key, path) :: post ->
          (forall p, (key, p) ∉ post) ->
          fonts !! key = Some path)
    /\ (forall key, (forall p, (key, p) ∉ scanned h dirs) -> fonts !! key = None).
Proof.
  unfold _installed_fonts. intros Hrun.
  destruct (_font_directories h) as [dirs | e]; [| discriminate Hrun].
  exists dirs. split; [reflexivity |].
  destruct (populate h dirs ∅) as [evs r] eqn:Hpop. cbn [snd] in Hrun. subst r.
  destruct (populate_ok _ _ _ _ _ Hpop) as (-> & _ & _).
  assert (Hlook : forall key,
            store_all ∅ (scanned h dirs) !! key = last_scanned key (scanned h dirs)).
  { intros key. rewrite store_all_lookup.
    destruct (last_scanned key _); [reflexivity | apply lookup_empty]. }
  split; [exact Hlook |]. split.
  - intros key path pre post Hsplit Hpost.
    rewrite Hlook, Hsplit. apply last_scanned_last. exact Hpost.
  - intros key Habs. rewrite Hlook. apply last_scanned_absent. exact Habs.
Qed.

(** A call to [find] when the registry is not built yet: the build is run,
    and its outcome decides both the result and the cache. *)
Lemma find_builds (h : host) (family_name : string) (is_bold is_italic : bool)
    (p : process) :
  _font_files p = None ->
  let r := find h family_name is_bold is_italic p in
  calls r.2 = calls p ++ (_installed_fonts h).1
  /\ match (_installed_fonts h).2 with
     | Ok fonts =>
         r.1 = getitem fonts (family_name, is_bold, is_italic)
         /\ _font_files r.2 = Some fonts
     | Raise e => r.1 = Raise e /\ _font_files r.2 = None
     end.
Proof.
  intros Hnone. unfold find. rewrite Hnone.
  destruct (_installed_fonts h) as [evs [fonts | e]]; simpl; auto.
Qed.

(** A call to [find] when the registry is built: a dict lookup, with no
    system call and no change to the cache. *)
Lemma find_cached (h : host) (family_name : string) (is_bold is_italic : bool)
    (p : process) (fonts : registry) :
  _font_files p = Some fonts ->
  find h family_name is_bold is_italic p
  = (getitem fonts (family_name, is_bold, is_italic), p).
Proof. intros Hsome. unfold find. rewrite Hsome. reflexivity. Qed.

Lemma find_each_cached (requests : list (host * descriptor)) (p : process)
    (fonts : registry) :
  _font_files p = Some fonts ->
  find_each requests p = (map (fun request => getitem fonts request.2) requests, p).
Proof.
  intros Hsome. induction requests as [| [h [[name bold] italic]] requests IH].
  - reflexivity.
  - cbn [find_each map snd]. rewrite (find_cached _ _ _ _ _ _ Hsome), IH.
    reflexivity.
Qed.

(** C2. The registry is built at most once: a first call to [find] whose
    build succeeds walks the font directories and stores the map; every
    later call, whatever its arguments and whatever the host has become,
    answers from that map, walks no directory and leaves the map as it
    is. *)
Theorem registry_built_once (h : host) (family_name : string)
    (is_bold is_italic : bool) (p : process) (fonts : registry)
    (later : list (host * descriptor)) :
  _font_files p = None ->
  (_installed_fonts h).2 = Ok fonts ->
  let p1 := (find h family_name is_bold is_italic p).2 in
  let pn := (find_each later p1).2 in
  _font_files p1 = Some fonts
  /\ (exists dirs,
        _font_directories h = Ok dirs
        /\ walked (calls p1) = walked (calls p) ++ dirs)
  /\ (find_each later p1).1 = map (fun request => getitem fonts request.2) later
  /\ _font_files pn = Some fonts
  /\ calls pn = calls p1.
Proof.
  intros Hnone Hbuilt p1 pn.
  destruct (find_builds h family_name is_bold is_italic p Hnone) as [Hcalls Hres].
  rewrite Hbuilt in Hres. destruct Hres as [_ Hcache]. fold p1 in Hcalls, Hcache.
  assert (Hlater := find_each_cached later p1 fonts Hcache).
  subst pn. rewrite Hlater. cbn [fst snd].
  split; [exact Hcache |]. split; [| auto].
  unfold _installed_fonts in Hbuilt, Hcalls.
  destruct (_font_directories h) as [dirs | e]; [| discriminate Hbuilt].
  exists dirs. split; [reflexivity |].
  destruct (populate h dirs ∅) as [evs r] eqn:Hpop. cbn [fst snd] in *. subst r.
  destruct (populate_ok _ _ _ _ _ Hpop) as (_ & Hw & _).
  rewrite Hcalls, walked_app, Hw. reflexivity.
Qed.

(** C6. Once the registry is built, [find] returns the path stored for the
    descriptor if there is one, and raises [KeyError] for the descriptor,
    the not-found error, if there is none. *)
Theorem find_after_build (h : host) (family_name : string)
    (is_bold is_italic : bool) (p : process) (fonts : registry) :
  _font_files p = Some fonts ->
  find h family_name is_bold is_italic p
  = (match fonts !! (family_name, is_bold, is_italic) with
     | Some path => Ok path
     | None => Raise (KeyError (KFont (family_name, is_bold, is_italic)))
     end, p).
Proof. intros Hsome. rewrite (find_cached _ _ _ _ _ _ Hsome). reflexivity. Qed.

(** C10. When the first call to [find] fails while the registry is being
    built, the exception reaches the caller and the cache stays unset; the
    next call runs the whole build again, and its result and the cache are
    decided by that new build alone. *)
Theorem failed_build_not_cached (h : host) (family_name : string)
    (is_bold is_italic : bool) (p : process) (e : exn) :
  _font_files p = None ->
  (_installed_fonts h).2 = Raise e ->
  let r := find h family_name is_bold is_italic p in
  r.1 = Raise e
  /\ _font_files r.2 = None
  /\ forall (h' : host) (family_name' : string) (is_bold' is_italic' : bool),
       let r' := find h' family_name' is_bold' is_italic' r.2 in
       calls r'.2 = calls r.2 ++ (_installed_fonts h').1
       /\ match (_installed_fonts h').2 with
          | Ok fonts =>
              r'.1 = getitem fonts (family_name', is_bold', is_italic')
              /\ _font_files r'.2 = Some fonts
          | Raise e' => r'.1 = Raise e' /\ _font_files r'.2 = None
          end.
Proof.
  intros Hnone Hfail r.
  destruct (find_builds h family_name is_bold is_italic p Hnone) as [_ Hres].
  rewrite Hfail in Hres. destruct Hres as [Hr Hcache]. fold r in Hr, Hcache.
  split; [exact Hr |]. split; [exact Hcache |].
  intros h' family_name' is_bold' is_italic'.
  apply find_builds. exact Hcache.
Qed.

(** C5. On a host whose platform is neither Darwin nor Windows, the
    enumeration of the font directories raises [OSError] with the message
    [unsupported operating system]; it returns no list.  A call to [find]
    that has to build the registry raises that exception, walks no
    directory and leaves the cache unset. *)
Theorem unsupported_platform_raises (h : host) :
  startswith (sys_platform h) "darwin" = false ->
  startswith (sys_platform h) "win32" = false ->
  _font_directories h = Raise (OSError "unsupported operating system")
  /\ forall (family_name : string) (is_bold is_italic : bool) (p : process),
       _font_files p = None ->
       find h family_name is_bold is_italic p
       = (Raise (OSError "unsupported operating system"),
          mk_process None (calls p)).
Proof.
  intros Hmac Hwin.
  assert (Hdirs : _font_directories h
                  = Raise (OSError "unsupported operating system")).
  { unfold _font_directories. rewrite Hmac, Hwin. reflexivity. }
  split; [exact Hdirs |].
  intros family_name is_bold is_italic p Hnone.
  unfold find, _installed_fonts. rewrite Hnone, Hdirs, app_nil_r. reflexivity.
Qed.

(** A candidate file that cannot be read fails the build, and so the call
    to [find] that started it, when the scans before its directory ended
    normally. *)
Lemma unreadable_font_fails_build (h : host) (dirs1 dirs2 : list string)
    (directory : string) (pre post : list (string * string))
    (bad : string * string) (e : exn) :
  _font_directories h = Ok (dirs1 ++ directory :: dirs2) ->
  (forall d, d ∈ dirs1 -> g_exit (_iter_font_files_in h d) = None) ->
  walk_entries h directory = pre ++ bad :: post ->
  (forall entry, entry ∈ List.filter (fun entry => is_font_filename entry.2) pre ->
     exists key, descriptor_of h (entry_path h entry) = Ok key) ->
  is_font_filename bad.2 = true ->
  descriptor_of h (entry_path h bad) = Raise e ->
  (_installed_fonts h).2 = Raise e.
Proof.
  intros Hdirs Hbefore Hwalk Hpre Hext Hbad.
  assert (Hexit : g_exit (_iter_font_files_in h directory) = Some e).
  { rewrite _iter_font_files_in_entries, Hwalk.
    destruct (scan_first_unreadable h pre post bad e Hpre Hext Hbad) as (He & _).
    unfold gen_seq at 1. cbn [g_exit]. exact He. }
  unfold _installed_fonts. rewrite Hdirs.
  apply (populate_raises h dirs1 dirs2 directory ∅ e Hbefore Hexit).
Qed.

End Properties.

(** * The properties on concrete hosts and files *)

(** ** With the bodies the module has for its unimplemented parts *)

(** [_TableFactory] raises for the first record of the directory, so only
    a font with an empty directory reaches the lookup of ['name']. *)
Lemma placeholder_family_name (s : pyfile) :
  f_closed s = false ->
  12 + 16 * table_count_field (f_data s) <= Z.of_nat (length (f_data s)) ->
  (family_name (D := placeholder) s).1
  = if table_count_field (f_data s) =? 0
    then Raise (KeyError (KStr "name"))
    else Raise NotImplementedError.
Proof.
  intros Hopen Hlen.
  pose proof (be_int_nonneg (slice (f_data s) 4 2)) as Hcount.
  fold (table_count_field (f_data s)) in Hcount.
  pose proof (_iter_table_records_spec s Hopen Hlen) as Hiter.
  unfold family_name, _tables, bind.
  destruct (_iter_table_records s) as [r s1]. cbn [fst] in Hiter. subst r.
  destruct (Z.eqb_spec (table_count_field (f_data s)) 0) as [-> | Hne].
  - reflexivity.
  - destruct (Z.to_nat (table_count_field (f_data s))) as [| n] eqn:Hn; [lia |].
    cbn [seq map dict_of_records]. destruct (table_record _ _) as [[tag off] len_].
    reflexivity.
Qed.

Example placeholder_nameless :
  (family_name (D := placeholder) (Fixture.fresh_stream Fixture.nameless)).1
  = Raise NotImplementedError.
Proof. vm_compute. reflexivity. Qed.

Example placeholder_no_tables :
  (family_name (D := placeholder) (Fixture.fresh_stream Fixture.no_tables)).1
  = Raise (KeyError (KStr "name")).
Proof. vm_compute. reflexivity. Qed.

Example placeholder_windows :
  (find (D := placeholder)
     (mk_host "win32" None "/" (fun _ => []) (fun _ => None))
     "Arial" false false Fixture.new_process).1
  = Raise NotImplementedError.
Proof. vm_compute. reflexivity. Qed.

(** ** Instances of the properties *)

Lemma family_name_needs_name_table_witness :
  (exists records,
     (_iter_table_records (Fixture.fresh_stream Fixture.nameless)).1
     = Ok (map Ok records)
     /\ (~ has_table records "name" ->
         family_name (D := Fixture.decoders) (Fixture.fresh_stream Fixture.nameless)
         = (Raise (KeyError (KStr "name")), mk_pyfile Fixture.nameless 28 false))
     /\ (has_table records "name" ->
         exists table,
           built_for (D := Fixture.decoders) records "name" table
           /\ family_name (D := Fixture.decoders) (Fixture.fresh_stream Fixture.nameless)
              = Table_family_name (Decoders := Fixture.decoders) table
                  (mk_pyfile Fixture.nameless 28 false)))
  /\ (exists records,
        (_iter_table_records (Fixture.fresh_stream Fixture.arial)).1
        = Ok (map Ok records)
        /\ (~ has_table records "name" ->
            family_name (D := Fixture.decoders) (Fixture.fresh_stream Fixture.arial)
            = (Raise (KeyError (KStr "name")), mk_pyfile Fixture.arial 28 false))
        /\ (has_table records "name" ->
            exists table,
              built_for (D := Fixture.decoders) records "name" table
              /\ family_name (D := Fixture.decoders) (Fixture.fresh_stream Fixture.arial)
                 = Table_family_name (Decoders := Fixture.decoders) table
                     (mk_pyfile Fixture.arial 28 false)))
  /\ (exists records,
        (_iter_table_records (Fixture.fresh_stream Fixture.no_tables)).1
        = Ok (map Ok records)
        /\ (~ has_table records "name" ->
            family_name (D := placeholder) (Fixture.fresh_stream Fixture.no_tables)
            = (Raise (KeyError (KStr "name")), mk_pyfile Fixture.no_tables 12 false))
        /\ (has_table records "name" ->
            exists table,
              built_for (D := placeholder) records "name" table
              /\ family_name (D := placeholder) (Fixture.fresh_stream Fixture.no_tables)
                 = Table_family_name (Decoders := placeholder) table
                     (mk_pyfile Fixture.no_tables 12 false))).
Proof.
  split; [| split].
  - apply (family_name_needs_name_table (D := Fixture.decoders)
             (Fixture.fresh_stream Fixture.nameless)
             (mk_pyfile Fixture.nameless 28 false)
             {[ "head" := mk_BaseTable "head" 28 2 ]}).
    vm_compute. reflexivity.
  - apply (family_name_needs_name_table (D := Fixture.decoders)
             (Fixture.fresh_stream Fixture.arial)
             (mk_pyfile Fixture.arial 28 false)
             {[ "name" := mk_BaseTable "name" 28 5 ]}).
    vm_compute. reflexivity.
  - apply (family_name_needs_name_table (D := placeholder)
             (Fixture.fresh_stream Fixture.no_tables)
             (mk_pyfile Fixture.no_tables 12 false) ∅).
    vm_compute. reflexivity.
Defined.

Example nameless_family_name :
  (family_name (D := Fixture.decoders) (Fixture.fresh_stream Fixture.nameless)).1
  = Raise (KeyError (KStr "name")).
Proof. vm_compute. reflexivity. Qed.

Lemma registry_built_once_witness :
  let later := [(Fixture.linux, ("Arial", false, false));
                (Fixture.bare_mac, ("Arial", true, false))] in
  let p1 := (find (D := Fixture.decoders) Fixture.mac "Arial" false false
               Fixture.new_process).2 in
  let pn := (find_each (D := Fixture.decoders) later p1).2 in
  _font_files p1 = Some {[ ("Arial", false, false) := "/Library/Fonts/Old/ARIAL.TTF" ]}
  /\ (exists dirs,
        _font_directories (D := Fixture.decoders) Fixture.mac = Ok dirs
        /\ walked (calls p1) = walked (calls Fixture.new_process) ++ dirs)
  /\ (find_each (D := Fixture.decoders) later p1).1
     = map (fun request =>
              getitem {[ ("Arial", false, false) := "/Library/Fonts/Old/ARIAL.TTF" ]}
                request.2) later
  /\ _font_files pn = Some {[ ("Arial", false, false) := "/Library/Fonts/Old/ARIAL.TTF" ]}
  /\ calls pn = calls p1.
Proof.
  apply (registry_built_once (D := Fixture.decoders) Fixture.mac "Arial" false false
           Fixture.new_process
           {[ ("Arial", false, false) := "/Library/Fonts/Old/ARIAL.TTF" ]}
           [(Fixture.linux, ("Arial", false, false));
            (Fixture.bare_mac, ("Arial", true, false))]).
  - reflexivity.
  - vm_compute. reflexivity.
Defined.

Lemma last_scanned_file_wins_witness :
  exists dirs,
    _font_directories (D := Fixture.decoders) Fixture.mac = Ok dirs
    /\ (forall key,
          ({[ ("Arial", false, false) := "/Library/Fonts/Old/ARIAL.TTF" ]} : registry) !! key
          = last_scanned key (scanned (D := Fixture.decoders) Fixture.mac dirs))
    /\ (forall key path pre post,
          scanned (D := Fixture.decoders) Fixture.mac dirs = pre ++ (key, path) :: post ->
          (forall p, (key, p) ∉ post) ->
          ({[ ("Arial", false, false) := "/Library/Fonts/Old/ARIAL.TTF" ]} : registry) !! key
          = Some path)
    /\ (forall key,
          (forall p, (key, p) ∉ scanned (D := Fixture.decoders) Fixture.mac dirs) ->
          ({[ ("Arial", false, false) := "/Library/Fonts/Old/ARIAL.TTF" ]} : registry) !! key
          = None).
Proof.
  apply (last_scanned_file_wins (D := Fixture.decoders) Fixture.mac
           {[ ("Arial", false, false) := "/Library/Fonts/Old/ARIAL.TTF" ]}).
  vm_compute. reflexivity.
Defined.

Example mac_scanned :
  scanned (D := Fixture.decoders) Fixture.mac
    ["/Library/Fonts"; "/Network/Library/Fonts"; "/System/Library/Fonts";
     "/Users/u/Library/Fonts"; "/Users/u/.fonts"]
  = [(("Arial", false, false), "/Library/Fonts/Arial.ttf");
     (("Arial", false, false), "/Library/Fonts/Old/ARIAL.TTF")].
Proof. vm_compute. reflexivity. Qed.

Lemma find_after_build_witness :
  let fonts : registry := {[ ("Arial", false, false) := "/Library/Fonts/Arial.ttf" ]} in
  find (D := placeholder) Fixture.linux "Arial" false false (mk_process (Some fonts) [])
  = (Ok "/Library/Fonts/Arial.ttf", mk_process (Some fonts) [])
  /\ find (D := placeholder) Fixture.linux "NoSuchFamily" false false
       (mk_process (Some fonts) [])
     = (Raise (KeyError (KFont ("NoSuchFamily", false, false))),
        mk_process (Some fonts) []).
Proof.
  intros fonts. split.
  - rewrite (find_after_build (D := placeholder) Fixture.linux "Arial" false false
               (mk_process (Some fonts) []) fonts) by reflexivity.
    vm_compute. reflexivity.
  - rewrite (find_after_build (D := placeholder) Fixture.linux "NoSuchFamily"
               false false (mk_process (Some fonts) []) fonts) by reflexivity.
    vm_compute. reflexivity.
Defined.

Lemma failed_build_not_cached_witness :
  let r := find (D := placeholder) Fixture.mac "Arial" false false
             Fixture.new_process in
  r.1 = Raise NotImplementedError
  /\ _font_files r.2 = None
  /\ forall (h' : host) (family_name' : string) (is_bold' is_italic' : bool),
       let r' := find (D := placeholder) h' family_name' is_bold' is_italic' r.2 in
       calls r'.2 = calls r.2 ++ (_installed_fonts (D := placeholder) h').1
       /\ match (_installed_fonts (D := placeholder) h').2 with
          | Ok fonts =>
              r'.1 = getitem fonts (family_name', is_bold', is_italic')
              /\ _font_files r'.2 = Some fonts
          | Raise e' => r'.1 = Raise e' /\ _font_files r'.2 = None
          end.
Proof.
  apply (failed_build_not_cached (D := placeholder) Fixture.mac "Arial" false false
           Fixture.new_process NotImplementedError).
  - reflexivity.
  - vm_compute. reflexivity.
Defined.

(** The failed build is run again by the next call: the first directory is
    walked, and its first font file opened, a second time. *)
Example failed_build_retried :
  let r := find (D := placeholder) Fixture.mac "Arial" false false
             Fixture.new_process in
  calls r.2 = [EvWalk "/Library/Fonts"; EvOpen "/Library/Fonts/Arial.ttf";
               EvClose "/Library/Fonts/Arial.ttf"]
  /\ calls (find (D := placeholder) Fixture.mac "Arial" false false r.2).2
     = calls r.2 ++ calls r.2.
Proof. vm_compute. split; reflexivity. Qed.

Lemma unsupported_platform_raises_witness :
  _font_directories (D := placeholder) Fixture.linux
  = Raise (OSError "unsupported operating system")
  /\ forall (family_name : string) (is_bold is_italic : bool) (p : process),
       _font_files p = None ->
       find (D := placeholder) Fixture.linux family_name is_bold is_italic p
       = (Raise (OSError "unsupported operating system"),
          mk_process None (calls p)).
Proof.
  apply (unsupported_platform_raises (D := placeholder) Fixture.linux);
    reflexivity.
Defined.

Lemma scanner_selects_font_files_witness :
  let g := _iter_font_files_in (D := Fixture.decoders) Fixture.mac "/Library/Fonts" in
  let candidates := [("/Library/Fonts", "Arial.ttf"); ("/Library/Fonts/Old", "ARIAL.TTF")] in
  List.filter (fun entry => is_font_filename entry.2)
    (walk_entries Fixture.mac "/Library/Fonts") = candidates
  /\ opened (g_calls g) = map (entry_path Fixture.mac) candidates
  /\ Forall2 (fun entry pair =>
                pair.2 = entry_path Fixture.mac entry
                /\ descriptor_of (D := Fixture.decoders) Fixture.mac
                     (entry_path Fixture.mac entry) = Ok pair.1)
       candidates (g_yields g)
  /\ g_exit g = None.
Proof.
  intros g candidates.
  assert (Hc : List.filter (fun entry => is_font_filename entry.2)
                 (walk_entries Fixture.mac "/Library/Fonts") = candidates)
    by (vm_compute; reflexivity).
  split; [exact Hc |].
  destruct (scanner_selects_font_files (D := Fixture.decoders) Fixture.mac
              "/Library/Fonts" eq_refl) as (_ & _ & Hall).
  rewrite Hc in Hall. apply Hall.
  intros entry Hin. subst candidates.
  repeat (apply elem_of_cons in Hin as [-> | Hin]);
    [eexists; vm_compute; reflexivity .. | inversion Hin].
Defined.

Example mac_scan :
  let g := _iter_font_files_in (D := Fixture.decoders) Fixture.mac "/Library/Fonts" in
  opened (g_calls g) = ["/Library/Fonts/Arial.ttf"; "/Library/Fonts/Old/ARIAL.TTF"]
  /\ g_yields g = [(("Arial", false, false), "/Library/Fonts/Arial.ttf");
                   (("Arial", false, false), "/Library/Fonts/Old/ARIAL.TTF")].
Proof. vm_compute. split; reflexivity. Qed.

Lemma unreadable_font_ends_scan_witness :
  let g := _iter_font_files_in (D := Fixture.decoders) Fixture.mac_with_corrupt
             "/Library/Fonts" in
  g_exit g = Some StructError
  /\ g_yields g
     = g_yields (gen_for [] (fun entry : string * string =>
                               font_file (D := Fixture.decoders)
                                 Fixture.mac_with_corrupt entry.1 entry.2))
  /\ opened (g_calls g)
     = map (entry_path Fixture.mac_with_corrupt)
         (List.filter (fun entry => is_font_filename entry.2) [])
       ++ [entry_path Fixture.mac_with_corrupt ("/Library/Fonts", "bad.ttf")].
Proof.
  apply (unreadable_font_ends_scan (D := Fixture.decoders) Fixture.mac_with_corrupt
           "/Library/Fonts" [] [("/Library/Fonts", "Arial.ttf")]
           ("/Library/Fonts", "bad.ttf") StructError).
  - vm_compute. reflexivity.
  - intros entry Hin. inversion Hin.
  - vm_compute. reflexivity.
  - vm_compute. reflexivity.
Defined.

(** ** A corrupt file is not skipped *)

(** C4, as stated, fails.  In a directory that lists a corrupt font file
    before a well-formed one, the scan opens the corrupt file, raises
    [struct.error] and yields nothing, where the same directory without the
    corrupt file yields the entry of the well-formed one; the call to
    [find] raises as well.  With the bodies the module has for its
    unimplemented parts the scan ends on the corrupt file in the same
    way. *)
Lemma corrupt_font_not_skipped :
  let valid_entry := (("Arial", false, false), "/Library/Fonts/Arial.ttf") in
  let alone := _iter_font_files_in (D := Fixture.decoders)
                 Fixture.mac_without_corrupt "/Library/Fonts" in
  let g := _iter_font_files_in (D := Fixture.decoders)
             Fixture.mac_with_corrupt "/Library/Fonts" in
  let g0 := _iter_font_files_in (D := placeholder)
              Fixture.mac_with_corrupt "/Library/Fonts" in
  (g_yields alone = [valid_entry] /\ g_exit alone = None)
  /\ g_exit g = Some StructError
  /\ g_yields g = []
  /\ opened (g_calls g) = ["/Library/Fonts/bad.ttf"]
  /\ ~ (g_exit g = None /\ g_yields g = [valid_entry])
  /\ (find (D := Fixture.decoders) Fixture.mac_with_corrupt "Arial" false false
        Fixture.new_process).1 = Raise StructError
  /\ g_exit g0 = Some StructError
  /\ opened (g_calls g0) = ["/Library/Fonts/bad.ttf"].
Proof.
  vm_compute. repeat split; try reflexivity.
  intros [H _]. discriminate H.
Qed.

(** * Further properties *)

(** ** [_Stream] *)

(** After [close], every read raises [ValueError] and changes nothing. *)
Theorem closed_stream_raises (s : pyfile) (r : request) :
  perform r (_Stream.close s).2 = (Raise ValueError, (_Stream.close s).2)
  /\ f_data (_Stream.close s).2 = f_data s.
Proof.
  split; [| reflexivity].
  destruct r as [offset len | template offset]; reflexivity.
Qed.

(** A read on an open stream, at an offset a table record can hold (below
    [2 ^ 32]) and of at most the length of the longest table directory
    ([65535 * 16] bytes, the most the module asks for), never raises at the
    end of the file: it returns the bytes there are in the range, possibly
    none, and leaves the cursor behind them. *)
Theorem read_returns_available_bytes (s : pyfile) (offset len : Z) :
  f_closed s = false -> 0 <= offset < 2 ^ 32 -> 0 <= len <= 65535 * 16 ->
  exists bs,
    (_Stream.read offset len s).1 = Ok bs
    /\ bs = slice (f_data s) (Z.to_nat offset) (Z.to_nat len)
    /\ Z.of_nat (length bs)
       = Z.min len (Z.max 0 (Z.of_nat (length (f_data s)) - offset))
    /\ f_pos (_Stream.read offset len s).2 = offset + Z.of_nat (length bs)
    /\ f_data (_Stream.read offset len s).2 = f_data s.
Proof.
  intros Hopen Hoff Hlen. change (2 ^ 32) with 4294967296 in Hoff.
  rewrite (_Stream_read_spec s offset len Hopen) by lia. cbn [fst snd f_pos f_data].
  eexists. split; [reflexivity |]. split; [reflexivity |].
  split; [| auto]. rewrite slice_length. lia.
Qed.

Lemma read_returns_available_bytes_witness :
  exists bs,
    (_Stream.read 30 100 (Fixture.fresh_stream Fixture.arial)).1 = Ok bs
    /\ bs = slice Fixture.arial 30 100
    /\ Z.of_nat (length bs) = Z.min 100 (Z.max 0 (33 - 30))
    /\ f_pos (_Stream.read 30 100 (Fixture.fresh_stream Fixture.arial)).2
       = 30 + Z.of_nat (length bs)
    /\ f_data (_Stream.read 30 100 (Fixture.fresh_stream Fixture.arial)).2
       = Fixture.arial.
Proof.
  apply (read_returns_available_bytes (Fixture.fresh_stream Fixture.arial) 30 100);
    [reflexivity | lia | lia].
Defined.

Lemma take_add_split {A} (l : list A) (a b : nat) :
  take (a + b) l = take a l ++ take b (drop a l).
Proof.
  revert l. induction a as [| a IH]; intros l; [reflexivity |].
  destruct l as [| x l]; cbn [Nat.add take drop firstn skipn app].
  - destruct b; reflexivity.
  - f_equal. apply IH.
Qed.

(** Reading a range at once gives what reading its two halves one after the
    other gives, also across the end of the file, for offsets below
    [2 ^ 32] and a range of at most [65535 * 16] bytes. *)
Theorem read_splits (s : pyfile) (offset n1 n2 : Z) :
  f_closed s = false -> 0 <= offset -> 0 <= n1 -> 0 <= n2 ->
  offset + n1 < 2 ^ 32 -> n1 + n2 <= 65535 * 16 ->
  exists b1 b2,
    (_Stream.read offset n1 s).1 = Ok b1
    /\ (_Stream.read (offset + n1) n2 (_Stream.read offset n1 s).2).1 = Ok b2
    /\ (_Stream.read offset (n1 + n2) s).1 = Ok (b1 ++ b2).
Proof.
  intros Hopen Hoff H1 H2 Hmax Hspan. change (2 ^ 32) with 4294967296 in Hmax.
  rewrite (_Stream_read_spec s offset n1 Hopen) by lia.
  rewrite (_Stream_read_spec s offset (n1 + n2) Hopen) by lia.
  cbn [fst snd].
  rewrite _Stream_read_spec by (try reflexivity; lia). cbn [fst f_data].
  do 2 eexists. split; [reflexivity |]. split; [reflexivity |].
  f_equal. unfold slice.
  replace (Z.to_nat (n1 + n2)) with (Z.to_nat n1 + Z.to_nat n2)%nat by lia.
  replace (Z.to_nat (offset + n1)) with (Z.to_nat offset + Z.to_nat n1)%nat by lia.
  rewrite take_add_split, drop_drop. reflexivity.
Qed.

Lemma read_splits_witness :
  exists b1 b2,
    (_Stream.read 12 16 (Fixture.fresh_stream Fixture.arial)).1 = Ok b1
    /\ (_Stream.read (12 + 16) 9
          (_Stream.read 12 16 (Fixture.fresh_stream Fixture.arial)).2).1 = Ok b2
    /\ (_Stream.read 12 (16 + 9) (Fixture.fresh_stream Fixture.arial)).1
       = Ok (b1 ++ b2).
Proof.
  apply (read_splits (Fixture.fresh_stream Fixture.arial) 12 16 9);
    [reflexivity | lia | lia | lia | reflexivity | lia].
Defined.

(** A read of fields on an open stream: the bytes there are in the range are
    read, and unpacked if they make up the whole struct. *)
Lemma _Stream_read_fields_cases (s : pyfile) (template : string)
    (fs : list struct.field) (offset : Z) :
  f_closed s = false ->
  struct.parse template = Some fs ->
  0 <= offset <= 9223372036854775807 ->
  Z.of_nat (struct.fields_size fs) <= 9223372036854775807 ->
  (_Stream.read_fields template offset s).1
  = if Z.of_nat (struct.fields_size fs)
       <=? Z.max 0 (Z.of_nat (length (f_data s)) - offset)
    then Ok (struct.decode fs
               (slice (f_data s) (Z.to_nat offset) (struct.fields_size fs)))
    else Raise StructError.
Proof.
  destruct s as [data pos cl]; cbn [f_closed f_data]. intros -> Hparse Hoff Hsize.
  unfold _Stream.read_fields, bind, lift, file_seek, file_read, struct.calcsize.
  rewrite Hparse. cbn [f_closed f_data f_pos].
  assert (Ho : (offset <? 0) = false) by (apply Z.ltb_ge; lia).
  assert (Hl : (Z.of_nat (struct.fields_size fs) <? 0) = false)
    by (apply Z.ltb_ge; lia).
  rewrite (fits_c_long_range offset) by lia.
  cbn [negb]. rewrite Ho. cbn [f_closed f_data f_pos].
  rewrite (fits_c_long_range (Z.of_nat (struct.fields_size fs))) by lia.
  cbn [negb]. rewrite Hl, Nat2Z.id.
  unfold struct.unpack_from. rewrite Hparse. cbv zeta.
  change (0 <? 0) with false. cbv iota. cbn [orb fst].
  rewrite length_take, length_drop. change (Z.to_nat 0) with 0%nat. rewrite drop_0.
  destruct (Z.leb_spec (Z.of_nat (struct.fields_size fs))
              (Z.max 0 (Z.of_nat (length data) - offset))) as [Hle | Hgt].
  - assert (Hlt : (Z.of_nat (Nat.min (struct.fields_size fs)
                               (length data - Z.to_nat offset)) - 0
                   <? Z.of_nat (struct.fields_size fs)) = false)
      by (apply Z.ltb_ge; lia).
    rewrite Hlt. reflexivity.
  - assert (Hlt : (Z.of_nat (Nat.min (struct.fields_size fs)
                               (length data - Z.to_nat offset)) - 0
                   <? Z.of_nat (struct.fields_size fs)) = true)
      by (apply Z.ltb_lt; lia).
    rewrite Hlt. reflexivity.
Qed.

(** On an open stream, a read of fields at an offset below [2 ^ 32], of a
    struct of at most [65535 * 16] bytes, returns values exactly when the
    bytes of the stream from the offset on make up the whole struct, and
    raises [struct.error] when they are cut short. *)
Theorem read_fields_needs_whole_struct (s : pyfile) (template : string)
    (fs : list struct.field) (offset : Z) :
  f_closed s = false ->
  struct.parse template = Some fs ->
  0 <= offset < 2 ^ 32 ->
  Z.of_nat (struct.fields_size fs) <= 65535 * 16 ->
  let available := Z.max 0 (Z.of_nat (length (f_data s)) - offset) in
  (Z.of_nat (struct.fields_size fs) <= available ->
   (_Stream.read_fields template offset s).1
   = Ok (struct.decode fs
           (slice (f_data s) (Z.to_nat offset) (struct.fields_size fs))))
  /\ (available < Z.of_nat (struct.fields_size fs) ->
      (_Stream.read_fields template offset s).1 = Raise StructError).
Proof.
  intros Hopen Hparse Hoff Hsize available. subst available.
  change (2 ^ 32) with 4294967296 in Hoff.
  rewrite (_Stream_read_fields_cases s template fs offset Hopen Hparse) by lia.
  split; intros Hlen.
  - destruct (Z.leb_spec (Z.of_nat (struct.fields_size fs))
                (Z.max 0 (Z.of_nat (length (f_data s)) - offset))); [reflexivity | lia].
  - destruct (Z.leb_spec (Z.of_nat (struct.fields_size fs))
                (Z.max 0 (Z.of_nat (length (f_data s)) - offset))); [lia | reflexivity].
Qed.

Lemma read_fields_needs_whole_struct_witness :
  (_Stream.read_fields ">4sHHHH" 0 (Fixture.fresh_stream Fixture.arial)).1
  = Ok (struct.decode
          [struct.Chars 4; struct.U16; struct.U16; struct.U16; struct.U16]
          (slice Fixture.arial (Z.to_nat 0) 12))
  /\ (_Stream.read_fields ">4sHHHH" 0 (Fixture.fresh_stream Fixture.corrupt)).1
     = Raise StructError.
Proof.
  split.
  - apply (read_fields_needs_whole_struct (Fixture.fresh_stream Fixture.arial)
             ">4sHHHH"
             [struct.Chars 4; struct.U16; struct.U16; struct.U16; struct.U16] 0);
      [reflexivity | reflexivity | split; [lia | reflexivity]
      | vm_compute; discriminate | vm_compute; discriminate].
  - apply (read_fields_needs_whole_struct (Fixture.fresh_stream Fixture.corrupt)
             ">4sHHHH"
             [struct.Chars 4; struct.U16; struct.U16; struct.U16; struct.U16] 0);
      [reflexivity | reflexivity | split; [lia | reflexivity]
      | vm_compute; discriminate | vm_compute; reflexivity].
Defined.

(** ** [_Font] *)

Lemma bind_raises {A B} (m : M A) (k : A -> M B) (s : pyfile) (e : exn) :
  (m s).1 = Raise e -> (bind m k s).1 = Raise e.
Proof.
  unfold bind. destruct (m s) as [[a | e'] s1]; cbn [fst]; congruence.
Qed.









Lemma yielded_generate {A} (l : list (result A)) : yielded (generate l) = yielded l.
Proof.
  induction l as [| [a | e] l IH]; cbn [generate yielded]; [| rewrite IH |]; reflexivity.
Qed.





Lemma table_record_at_complete (data : list byte) (n i : nat) :
  (16 * i + 16 <= Nat.min n (length data - 12))%nat ->
  table_record_at (slice data 12 n) (Z.of_nat i) = Ok (table_record data i).
Proof.
  intros Hi. unfold table_record_at.
  rewrite (unpack_from_decode _
    [struct.Chars 4; struct.U32; struct.U32; struct.U32]);
    [| reflexivity | lia |].
  - replace (Z.to_nat (Z.of_nat i * 16)) with (16 * i)%nat by lia.
    rewrite decode_directory_entry.
    unfold table_record, directory_entry.
    rewrite !slice_drop, !slice_slice by lia.
    repeat f_equal; lia.
  - rewrite slice_length. cbn [struct.fields_size fold_right struct.field_size]. lia.
Qed.

Lemma table_record_at_incomplete (bufr : list byte) (i : nat) :
  (length bufr < 16 * i + 16)%nat ->
  table_record_at bufr (Z.of_nat i) = Raise StructError.
Proof.
  intros Hi. unfold table_record_at, struct.unpack_from.
  change (struct.parse ">4sLLL")
    with (Some [struct.Chars 4; struct.U32; struct.U32; struct.U32]).
  cbv zeta. cbn [struct.fields_size fold_right struct.field_size].
  assert (Hneg : (Z.of_nat i * 16 <? 0) = false) by (apply Z.ltb_ge; lia).
  rewrite !Hneg.
  assert (Hshort : (Z.of_nat (length bufr) - Z.of_nat i * 16
                    <? Z.of_nat (4 + (4 + (4 + (4 + 0))))) = true)
    by (apply Z.ltb_lt; lia).
  rewrite Hshort. reflexivity.
Qed.

(** The steps on a file that holds its header: the entries the file holds
    in full give their records, the others raise. *)
Lemma _iter_table_records_cases (s : pyfile) :
  f_closed s = false ->
  (12 <= length (f_data s))%nat ->
  (_iter_table_records s).1
  = Ok (generate
          (map (fun i =>
                  if (i <? complete_entries (f_data s))%nat
                  then Ok (table_record (f_data s) i)
                  else Raise StructError)
             (seq 0 (Z.to_nat (table_count_field (f_data s)))))).
Proof.
  intros Hopen Hlen.
  pose proof (table_count_bound (f_data s)) as Hb.
  unfold _iter_table_records, bind.
  rewrite _table_count_spec by assumption.
  rewrite _Stream_read_spec by (try reflexivity; lia).
  cbn [f_data ret fst]. f_equal. f_equal. unfold range. rewrite map_map.
  change (Z.to_nat 12) with 12%nat.
  apply map_ext_in. intros i Hi. apply in_seq in Hi.
  set (n := Z.to_nat (table_count_field (f_data s) * 16)).
  assert (Hn : n = (16 * Z.to_nat (table_count_field (f_data s)))%nat)
    by (subst n; lia).
  unfold complete_entries.
  pose proof (Nat.div_mod_eq (length (f_data s) - 12) 16) as Hdiv.
  pose proof (Nat.mod_upper_bound (length (f_data s) - 12) 16) as Hmod.
  destruct (Nat.ltb_spec i ((length (f_data s) - 12) / 16)) as [Hin | Hout].
  - apply table_record_at_complete. lia.
  - apply table_record_at_incomplete. rewrite slice_length. lia.
Qed.

Lemma yielded_complete {A} (f : nat -> A) (k n : nat) :
  (k < n)%nat ->
  yielded (map (fun i => if (i <? k)%nat then Ok (f i) else Raise StructError)
             (seq 0 n))
  = map f (seq 0 k).
Proof.
  intros Hk.
  enough (H : forall m j, (j <= k)%nat -> (k < j + m)%nat ->
            yielded (map (fun i => if (i <? k)%nat then Ok (f i) else Raise StructError)
                       (seq j m))
            = map f (seq j (k - j))) by (rewrite (H n 0%nat) by lia; f_equal; f_equal; lia).
  induction m as [| m IH]; intros j Hj Hm; [lia |].
  cbn [seq map yielded].
  destruct (Nat.ltb_spec j k) as [Hlt | Hge].
  - rewrite IH by lia.
    replace (k - j)%nat with (S (k - S j)) by lia. reflexivity.
  - replace (k - j)%nat with 0%nat by lia. reflexivity.
Qed.

Lemma generate_first_raise {A} (f : nat -> A) (k n : nat) :
  (k < n)%nat ->
  generate (map (fun i => if (i <? k)%nat then Ok (f i) else Raise StructError)
              (seq 0 n)) !! k
  = Some (Raise StructError).
Proof.
  intros Hk.
  enough (H : forall m j, (j <= k)%nat -> (k < j + m)%nat ->
            generate (map (fun i => if (i <? k)%nat then Ok (f i) else Raise StructError)
                        (seq j m)) !! (k - j)%nat
            = Some (Raise StructError)).
  { specialize (H n 0%nat). rewrite Nat.sub_0_r in H. apply H; lia. }
  induction m as [| m IH]; intros j Hj Hm; [lia |].
  cbn [seq map]. destruct (Nat.ltb_spec j k) as [Hlt | Hge]; cbn [generate].
  - replace (k - j)%nat with (S (k - S j)) by lia. cbn [lookup list_lookup].
    apply IH; lia.
  - replace (k - j)%nat with 0%nat by lia. reflexivity.
Qed.

Lemma lookup_map_Ok {A} (records : list A) (k : nat) (e : exn) :
  map Ok records !! k = Some (Raise e) -> False.
Proof.
  revert k. induction records as [| r records IH]; intros k Hk.
  - destruct k; discriminate Hk.
  - destruct k as [| k]; [discriminate Hk | exact (IH k Hk)].
Qed.

Lemma classic_has_table (records : list (string * Z * Z)) (tag : string) :
  has_table records tag \/ ~ has_table records tag.
Proof.
  destruct (decide (tag ∈ (fun r => r.1.1) <$> records)) as [Hd | Hd].
  - left. apply list_elem_of_fmap in Hd as ([[tg off] len_] & -> & Hmem).
    exists off, len_. exact Hmem.
  - right. intros (off & len_ & Hmem). apply Hd.
    apply list_elem_of_fmap. exists (tag, off, len_). split; [reflexivity | exact Hmem].
Qed.

Section MoreProperties.

Context `{D : Decoders}.

(** A file cut short inside its 12-byte header: the header read raises
    [struct.error], and with it the table count, the generator, the table
    map, the family name and the descriptor of the font. *)
Theorem short_header_raises (s : pyfile) :
  f_closed s = false ->
  (length (f_data s) < 12)%nat ->
  (_fields s).1 = Raise StructError
  /\ (_table_count s).1 = Raise StructError
  /\ (_iter_table_records s).1 = Raise StructError
  /\ (_tables s).1 = Raise StructError
  /\ (family_name s).1 = Raise StructError
  /\ (font_key s).1 = Raise StructError.
Proof.
  intros Hopen Hlen.
  assert (Hf : (_fields s).1 = Raise StructError).
  { unfold _fields.
    rewrite (_Stream_read_fields_cases s ">4sHHHH"
               [struct.Chars 4; struct.U16; struct.U16; struct.U16; struct.U16]
               0 Hopen eq_refl)
      by (cbn [struct.fields_size fold_right struct.field_size]; lia).
    cbn [struct.fields_size fold_right struct.field_size].
    destruct (Z.leb_spec (Z.of_nat (4 + (2 + (2 + (2 + (2 + 0))))))
                (Z.max 0 (Z.of_nat (length (f_data s)) - 0))); [lia | reflexivity]. }
  assert (Hc : (_table_count s).1 = Raise StructError)
    by (apply bind_raises; exact Hf).
  assert (Hi : (_iter_table_records s).1 = Raise StructError)
    by (apply bind_raises; exact Hc).
  assert (Ht : (_tables s).1 = Raise StructError)
    by (apply bind_raises; exact Hi).
  assert (Hn : (family_name s).1 = Raise StructError)
    by (apply bind_raises; exact Ht).
  repeat split; try assumption. apply bind_raises. exact Hn.
Qed.

(** A file that holds its header but not the whole table directory: the
    generator yields the records of the entries the file holds in full and
    then raises [struct.error]; the table map is not built and the family
    name is an exception. *)
Theorem truncated_directory_raises (s : pyfile) :
  f_closed s = false ->
  (12 <= length (f_data s))%nat ->
  (complete_entries (f_data s) < Z.to_nat (table_count_field (f_data s)))%nat ->
  exists steps,
    (_iter_table_records s).1 = Ok steps
    /\ yielded steps
       = map (table_record (f_data s)) (seq 0 (complete_entries (f_data s)))
    /\ steps !! complete_entries (f_data s) = Some (Raise StructError)
    /\ (forall tables s', _tables s <> (Ok tables, s'))
    /\ exists e, (family_name s).1 = Raise e.
Proof.
  intros Hopen Hlen Hk.
  pose proof (_iter_table_records_cases s Hopen Hlen) as Hiter.
  eexists. split; [exact Hiter |].
  set (k := complete_entries (f_data s)) in *.
  set (n := Z.to_nat (table_count_field (f_data s))) in *.
  split; [rewrite yielded_generate; apply yielded_complete; exact Hk |].
  assert (Hstep : generate
                    (map (fun i => if (i <? k)%nat
                                   then Ok (table_record (f_data s) i)
                                   else Raise StructError) (seq 0 n)) !! k
                  = Some (Raise StructError)).
  { apply generate_first_raise. exact Hk. }
  split; [exact Hstep |].
  assert (Hno : forall tables s', _tables s <> (Ok tables, s')).
  { intros tables s' Hrun.
    destruct (_tables_ok s s' tables Hrun) as (records & Hrec & _).
    rewrite Hiter in Hrec. injection Hrec as Hrec.
    rewrite Hrec in Hstep. exact (lookup_map_Ok records k StructError Hstep). }
  split; [exact Hno |].
  destruct (_tables s) as [[tables | e] s1] eqn:Ht.
  - exfalso. exact (Hno tables s1 eq_refl).
  - exists e. apply bind_raises. rewrite Ht. reflexivity.
Qed.

Lemma dict_of_records_size (steps : list (result (string * Z * Z)))
    (acc tables : gmap string Table) (s s' : pyfile) :
  dict_of_records steps acc s = (Ok tables, s') ->
  (size tables <= size acc + length steps)%nat.
Proof.
  revert acc s. induction steps as [| step steps IH]; intros acc s Hrun.
  - simpl in Hrun. injection Hrun as -> _. simpl. lia.
  - destruct step as [[[tag off] len_] | e]; simpl in Hrun; [| discriminate Hrun].
    unfold bind in Hrun.
    destruct (_TableFactory tag off len_ s) as [[t | e] s1]; [| discriminate Hrun].
    apply IH in Hrun. rewrite map_size_insert in Hrun.
    cbn [length]. destruct (acc !! tag); simpl in Hrun; lia.
Qed.

(** When the table map is built, it has an object for each tag of the
    directory and for nothing else; records that share a tag share one
    entry, so the map is no larger than the directory. *)
Theorem _tables_keys (s s' : pyfile) (tables : gmap string Table) :
  _tables s = (Ok tables, s') ->
  exists records,
    (_iter_table_records s).1 = Ok (map Ok records)
    /\ (forall tag, is_Some (tables !! tag) <-> has_table records tag)
    /\ (size tables <= length records)%nat.
Proof.
  intros Hrun. destruct (_tables_ok s s' tables Hrun) as (records & Hiter & Hrec).
  exists records. split; [exact Hiter |]. split.
  - intros tag. destruct (Hrec tag) as [Hout Hin]. split.
    + intros Hsome. destruct (classic_has_table records tag) as [Hyes | Hno];
        [exact Hyes |].
      rewrite (Hout Hno) in Hsome. destruct Hsome as [t Ht]. discriminate Ht.
    + intros Hyes. destruct (Hin Hyes) as (table & -> & _). eexists. reflexivity.
  - unfold _tables, bind in Hrun.
    destruct (_iter_table_records s) as [[steps | e] s1]; [| discriminate Hrun].
    cbn [fst] in Hiter. injection Hiter as ->.
    apply dict_of_records_size in Hrun.
    rewrite map_size_empty, length_map in Hrun. exact Hrun.
Qed.

(** ** The scanner and its file handles *)

Lemma closed_app (evs1 evs2 : list event) :
  closed (evs1 ++ evs2) = closed evs1 ++ closed evs2.
Proof.
  induction evs1 as [| [d | path | path] evs1 IH]; simpl; congruence.
Qed.

Lemma font_file_closes (h : host) (root filename : string) :
  closed (g_calls (font_file h root filename))
  = List.filter (opens h) (opened (g_calls (font_file h root filename))).
Proof.
  unfold font_file, opens.
  destruct (is_font_filename filename); cbn [negb]; [| reflexivity].
  destruct (open_rb h _) as [data |] eqn:Hopen.
  - destruct (font_key _).1; cbn [g_calls opened closed List.filter];
      rewrite Hopen; reflexivity.
  - cbn [g_calls opened closed List.filter]. rewrite Hopen. reflexivity.
Qed.

Lemma gen_seq_closes {A} (h : host) (g1 g2 : gen A) :
  closed (g_calls g1) = List.filter (opens h) (opened (g_calls g1)) ->
  closed (g_calls g2) = List.filter (opens h) (opened (g_calls g2)) ->
  closed (g_calls (gen_seq g1 g2))
  = List.filter (opens h) (opened (g_calls (gen_seq g1 g2))).
Proof.
  intros H1 H2. unfold gen_seq. destruct (g_exit g1); cbn [g_calls]; [exact H1 |].
  rewrite closed_app, opened_app, List.filter_app, H1, H2. reflexivity.
Qed.

(** Every stream the scanner opens is closed again, whether its font was
    read or raised; only a file that could not be opened has nothing to
    close. *)
Theorem scanner_closes_what_it_opens (h : host) (directory : string) :
  closed (g_calls (_iter_font_files_in h directory))
  = List.filter (opens h) (opened (g_calls (_iter_font_files_in h directory))).
Proof.
  rewrite _iter_font_files_in_entries.
  apply gen_seq_closes; [reflexivity |].
  induction (walk_entries h directory) as [| [root filename] entries IH];
    [reflexivity |].
  cbn [gen_for fst snd]. apply gen_seq_closes; [apply font_file_closes | exact IH].
Qed.

(** A scan of entries none of which is a candidate does nothing. *)
Lemma scan_no_candidates (h : host) (entries : list (string * string)) :
  List.filter (fun entry => is_font_filename entry.2) entries = [] ->
  gen_for entries (fun entry => font_file h entry.1 entry.2) = gen_done.
Proof.
  induction entries as [| [root filename] entries IH]; intros Hnone; [reflexivity |].
  cbn [List.filter snd] in Hnone.
  destruct (is_font_filename filename) eqn:Hext; [discriminate Hnone |].
  cbn [gen_for fst snd]. rewrite (font_file_skipped h root filename Hext).
  rewrite gen_seq_done_l. apply IH. exact Hnone.
Qed.

(** What a yielded pair says about the file it comes from. *)
Lemma scan_yields_inv (h : host) (entries : list (string * string))
    (key : descriptor) (path : string) :
  (key, path) ∈ g_yields (gen_for entries (fun entry => font_file h entry.1 entry.2)) ->
  exists entry,
    entry ∈ entries /\ is_font_filename entry.2 = true
    /\ path = entry_path h entry /\ descriptor_of h path = Ok key.
Proof.
  induction entries as [| [root filename] entries IH]; intros Hin.
  - inversion Hin.
  - cbn [gen_for fst snd] in Hin.
    assert (Hcases : (key, path) ∈ g_yields (font_file h root filename)
                     \/ (key, path) ∈ g_yields
                          (gen_for entries (fun entry => font_file h entry.1 entry.2))).
    { unfold gen_seq in Hin. destruct (g_exit (font_file h root filename));
        cbn [g_yields] in Hin; [left; exact Hin |].
      apply elem_of_app in Hin. exact Hin. }
    destruct Hcases as [Hhere | Hlater].
    + destruct (is_font_filename filename) eqn:Hext.
      * destruct (font_file_candidate h root filename Hext) as (_ & _ & Hres).
        destruct (descriptor_of h (entry_path h (root, filename))) as [k | e] eqn:Hd;
          destruct Hres as [Hy _]; rewrite Hy in Hhere.
        -- apply list_elem_of_singleton in Hhere. injection Hhere as -> ->.
           exists (root, filename). repeat split; [left | exact Hext | exact Hd].
        -- inversion Hhere.
      * rewrite (font_file_skipped h root filename Hext) in Hhere. inversion Hhere.
    + destruct (IH Hlater) as (entry & Hmem & Hrest).
      exists entry. split; [right; exact Hmem | exact Hrest].
Qed.

(** A scan that ends normally has read every candidate and yielded its
    pair. *)
Lemma scan_exit_none_inv (h : host) (entries : list (string * string)) :
  g_exit (gen_for entries (fun entry => font_file h entry.1 entry.2)) = None ->
  forall entry, entry ∈ entries -> is_font_filename entry.2 = true ->
    exists key,
      descriptor_of h (entry_path h entry) = Ok key
      /\ (key, entry_path h entry)
         ∈ g_yields (gen_for entries (fun entry => font_file h entry.1 entry.2)).
Proof.
  induction entries as [| [root filename] entries IH]; intros Hexit entry Hin Hext.
  - inversion Hin.
  - cbn [gen_for fst snd] in *. unfold gen_seq in *.
    destruct (g_exit (font_file h root filename)) eqn:Hfirst; [congruence |].
    cbn [g_exit g_yields] in *.
    apply elem_of_cons in Hin as [-> | Hin].
    + cbn [snd] in Hext.
      destruct (font_file_candidate h root filename Hext) as (_ & _ & Hres).
      destruct (descriptor_of h (entry_path h (root, filename))) as [k | e];
        destruct Hres as [Hy He]; [| congruence].
      exists k. split; [reflexivity |]. rewrite Hy. apply elem_of_app. left. left.
    + destruct (IH Hexit entry Hin Hext) as (key & Hd & Hy).
      exists key. split; [exact Hd |]. apply elem_of_app. right. exact Hy.
Qed.

Lemma _iter_font_files_in_yields (h : host) (directory : string) :
  g_yields (_iter_font_files_in h directory)
  = g_yields (gen_for (walk_entries h directory)
                (fun entry => font_file h entry.1 entry.2))
  /\ g_exit (_iter_font_files_in h directory)
     = g_exit (gen_for (walk_entries h directory)
                 (fun entry => font_file h entry.1 entry.2)).
Proof. rewrite _iter_font_files_in_entries. split; reflexivity. Qed.

(** ** The font directories of a Mac *)

Lemma join2_absolute (path b : string) :
  posixpath.isabs path = true -> posixpath.isabs (posixpath.join2 path b) = true.
Proof.
  unfold posixpath.isabs. intros Habs.
  destruct (proj1 (startswith_slash path) Habs) as [r ->].
  unfold posixpath.join2.
  destruct (startswith b "/") eqn:Hb; [exact Hb |].
  destruct (String.eqb _ "" || endswith_char _ "/"); reflexivity.
Qed.

(** On Darwin the directories are the three system font directories, in
    this order, followed by the two font directories under [HOME] when
    [HOME] is set; the enumeration does not raise, and with an absolute
    [HOME] every directory is absolute. *)
Theorem darwin_font_directories (h : host) :
  startswith (sys_platform h) "darwin" = true ->
  exists home_dirs,
    _font_directories h
    = Ok (["/Library/Fonts"; "/Network/Library/Fonts"; "/System/Library/Fonts"]
          ++ home_dirs)
    /\ match environ_HOME h with
       | None => home_dirs = []
       | Some home =>
           home_dirs = [posixpath.join home ["Library"; "Fonts"];
                        posixpath.join home [".fonts"]]
           /\ (posixpath.isabs home = true ->
               Forall (fun d => posixpath.isabs d = true) home_dirs)
       end.
Proof.
  intros Hmac. unfold _font_directories, _os_x_font_directories. rewrite Hmac.
  destruct (environ_HOME h) as [home |].
  - eexists. split; [reflexivity |]. split; [reflexivity |].
    intros Habs. unfold posixpath.join. cbn [fold_left].
    repeat constructor; repeat apply join2_absolute; exact Habs.
  - exists []. split; [reflexivity | reflexivity].
Qed.

(** ** The registry *)

Lemma populate_all_ok (h : host) (dirs : list string) (fonts : registry) :
  (forall d, d ∈ dirs -> g_exit (_iter_font_files_in h d) = None) ->
  (populate h dirs fonts).2 = Ok (store_all fonts (scanned h dirs))
  /\ (populate h dirs fonts).1
     = d ← dirs; g_calls (_iter_font_files_in h d).
Proof.
  revert fonts. induction dirs as [| d dirs IH]; intros fonts Hnone.
  - split; reflexivity.
  - cbn [populate]. rewrite (Hnone d) by left.
    destruct (IH (store_all fonts (g_yields (_iter_font_files_in h d)))) as [Hr Hc];
      [intros d' Hin; apply Hnone; right; exact Hin |].
    destruct (populate h dirs _) as [evs r]. cbn [fst snd] in *. subst r evs.
    unfold scanned. cbn [mbind list_bind]. rewrite store_all_app. auto.
Qed.

Lemma _iter_font_files_in_no_candidates (h : host) (directory : string) :
  List.filter (fun entry => is_font_filename entry.2) (walk_entries h directory) = [] ->
  _iter_font_files_in h directory = mk_gen [EvWalk directory] [] None.
Proof.
  intros Hnone. rewrite _iter_font_files_in_entries.
  rewrite (scan_no_candidates h _ Hnone). reflexivity.
Qed.

Lemma scans_nothing (h : host) (dirs : list string) :
  (forall d, d ∈ dirs -> _iter_font_files_in h d = mk_gen [EvWalk d] [] None) ->
  (d ← dirs; g_calls (_iter_font_files_in h d)) = map EvWalk dirs
  /\ scanned h dirs = [].
Proof.
  unfold scanned. induction dirs as [| d dirs IH]; intros Hgen; [split; reflexivity |].
  cbn [mbind list_bind map]. rewrite (Hgen d) by left. cbn [g_calls g_yields app].
  destruct IH as [-> ->]; [intros d' Hin; apply Hgen; right; exact Hin |].
  split; reflexivity.
Qed.

(** On a host whose font directories hold no candidate file, the first call
    to [find] walks the directories, raises [KeyError] and caches the empty
    registry; the empty registry counts as built, so later calls raise
    [KeyError] without walking again. *)
Theorem empty_registry_is_cached (h : host) (dirs : list string)
    (family_name : string) (is_bold is_italic : bool) (p : process) :
  _font_directories h = Ok dirs ->
  (forall d, d ∈ dirs ->
     List.filter (fun entry => is_font_filename entry.2) (walk_entries h d) = []) ->
  _font_files p = None ->
  let r := find h family_name is_bold is_italic p in
  r = (Raise (KeyError (KFont (family_name, is_bold, is_italic))),
       mk_process (Some ∅) (calls p ++ map EvWalk dirs))
  /\ forall (h' : host) (family_name' : string) (is_bold' is_italic' : bool),
       find h' family_name' is_bold' is_italic' r.2
       = (Raise (KeyError (KFont (family_name', is_bold', is_italic'))), r.2).
Proof.
  intros Hdirs Hnone Hcache r.
  assert (Hgen : forall d, d ∈ dirs ->
            _iter_font_files_in h d = mk_gen [EvWalk d] [] None).
  { intros d Hin. apply _iter_font_files_in_no_candidates, Hnone, Hin. }
  assert (Hbuild : _installed_fonts h = (map EvWalk dirs, Ok ∅)).
  { unfold _installed_fonts. rewrite Hdirs.
    destruct (populate_all_ok h dirs ∅) as [Hr Hc].
    { intros d Hin. rewrite (Hgen d Hin). reflexivity. }
    destruct (populate h dirs ∅) as [evs res]. cbn [fst snd] in *. subst.
    destruct (scans_nothing h dirs Hgen) as [-> ->]. reflexivity. }
  assert (Hr : r = (Raise (KeyError (KFont (family_name, is_bold, is_italic))),
                    mk_process (Some ∅) (calls p ++ map EvWalk dirs))).
  { subst r. unfold find. rewrite Hcache, Hbuild. unfold getitem.
    rewrite lookup_empty. reflexivity. }
  split; [exact Hr |].
  intros h' family_name' is_bold' is_italic'. rewrite Hr. cbn [snd].
  unfold find. cbn [_font_files]. unfold getitem. rewrite lookup_empty. reflexivity.
Qed.

Lemma last_scanned_in (key : descriptor) (path : string)
    (pairs : list (descriptor * string)) :
  last_scanned key pairs = Some path -> (key, path) ∈ pairs.
Proof.
  unfold last_scanned. intros Hlast.
  apply last_Some in Hlast as [l' Hl'].
  assert (Hin : path ∈ snd <$> filter (fun kp : descriptor * string => kp.1 = key) pairs).
  { rewrite Hl'. apply elem_of_app. right. left. }
  apply list_elem_of_fmap in Hin as ([k q] & -> & Hmem).
  apply list_elem_of_filter in Hmem as [Hk Hmem]. cbn [fst snd] in *. subst k.
  exact Hmem.
Qed.

Lemma last_scanned_some (key : descriptor) (path : string)
    (pairs : list (descriptor * string)) :
  (key, path) ∈ pairs -> exists path', last_scanned key pairs = Some path'.
Proof.
  intros Hin. unfold last_scanned.
  destruct (last (snd <$> filter (fun kp : descriptor * string => kp.1 = key) pairs))
    as [q |] eqn:Hlast; [eauto |].
  apply last_None in Hlast. apply fmap_nil_inv in Hlast.
  assert (Hmem : (key, path) ∈ filter (fun kp : descriptor * string => kp.1 = key) pairs)
    by (apply list_elem_of_filter; split; [reflexivity | exact Hin]).
  rewrite Hlast in Hmem. inversion Hmem.
Qed.

Lemma scanned_inv (h : host) (dirs : list string) (key : descriptor) (path : string) :
  (key, path) ∈ scanned h dirs ->
  exists d entry,
    d ∈ dirs /\ entry ∈ walk_entries h d /\ is_font_filename entry.2 = true
    /\ path = entry_path h entry /\ descriptor_of h path = Ok key.
Proof.
  unfold scanned. intros Hin.
  apply list_elem_of_bind in Hin as (d & Hy & Hd).
  rewrite (proj1 (_iter_font_files_in_yields h d)) in Hy.
  destruct (scan_yields_inv h _ key path Hy) as (entry & Hmem & Hrest).
  exists d, entry. auto.
Qed.

(** A path [find] returns after building the registry is the absolute path
    of a file that a walk of one of the font directories listed, whose name
    has a font extension and whose descriptor, read during the scan, is the
    one asked for. *)
Theorem find_returns_scanned_font (h : host) (family_name : string)
    (is_bold is_italic : bool) (p : process) (path : string) :
  _font_files p = None ->
  (find h family_name is_bold is_italic p).1 = Ok path ->
  exists dirs d entry,
    _font_directories h = Ok dirs
    /\ d ∈ dirs /\ entry ∈ walk_entries h d /\ is_font_filename entry.2 = true
    /\ path = entry_path h entry
    /\ descriptor_of h path = Ok (family_name, is_bold, is_italic).
Proof.
  intros Hcache Hfound.
  destruct (find_builds h family_name is_bold is_italic p Hcache) as [_ Hres].
  unfold _installed_fonts in Hres.
  destruct (_font_directories h) as [dirs | e] eqn:Hdirs;
    [| cbn [snd] in Hres; destruct Hres as [Hr _]; congruence].
  destruct (populate h dirs ∅) as [evs [fonts | e]] eqn:Hpop; cbn [snd] in Hres;
    [| destruct Hres as [Hr _]; congruence].
  destruct Hres as [Hr _]. rewrite Hr in Hfound.
  destruct (populate_ok _ _ _ _ _ Hpop) as (-> & _ & _).
  unfold getitem in Hfound. rewrite store_all_lookup in Hfound.
  destruct (last_scanned (family_name, is_bold, is_italic) (scanned h dirs))
    as [q |] eqn:Hlast; [| rewrite lookup_empty in Hfound; discriminate Hfound].
  injection Hfound as ->.
  destruct (scanned_inv h dirs _ _ (last_scanned_in _ _ _ Hlast))
    as (d & entry & Hrest).
  exists dirs, d, entry. split; [reflexivity | exact Hrest].
Qed.

(** In a registry that was built, every candidate file of every font
    directory was read, and its descriptor is bound to a file with that
    descriptor (itself, or one scanned later). *)
Theorem scanned_font_is_found (h : host) (fonts : registry) (dirs : list string)
    (d : string) (entry : string * string) :
  (_installed_fonts h).2 = Ok fonts ->
  _font_directories h = Ok dirs ->
  d ∈ dirs -> entry ∈ walk_entries h d -> is_font_filename entry.2 = true ->
  exists key path,
    descriptor_of h (entry_path h entry) = Ok key
    /\ fonts !! key = Some path
    /\ descriptor_of h path = Ok key.
Proof.
  intros Hbuilt Hdirs Hd Hentry Hext.
  unfold _installed_fonts in Hbuilt. rewrite Hdirs in Hbuilt.
  destruct (populate h dirs ∅) as [evs r] eqn:Hpop. cbn [snd] in Hbuilt. subst r.
  destruct (populate_ok _ _ _ _ _ Hpop) as (-> & _ & Hnone).
  pose proof (Hnone d Hd) as Hexit.
  rewrite (proj2 (_iter_font_files_in_yields h d)) in Hexit.
  destruct (scan_exit_none_inv h _ Hexit entry Hentry Hext) as (key & Hkey & Hy).
  assert (Hin : (key, entry_path h entry) ∈ scanned h dirs).
  { unfold scanned. apply list_elem_of_bind. exists d. split; [| exact Hd].
    rewrite (proj1 (_iter_font_files_in_yields h d)). exact Hy. }
  destruct (last_scanned_some _ _ _ Hin) as [path Hlast].
  exists key, path. split; [exact Hkey |].
  split; [rewrite store_all_lookup, Hlast; reflexivity |].
  destruct (scanned_inv h dirs key path (last_scanned_in _ _ _ Hlast))
    as (_ & _ & _ & _ & _ & _ & Hdesc).
  exact Hdesc.
Qed.

(** A build ends at the first directory whose scan raises: the exception
    leaves [_installed_fonts], and the directories after it are not
    walked. *)
Theorem failed_scan_stops_build (h : host) (dirs1 dirs2 : list string)
    (d : string) (e : exn) :
  _font_directories h = Ok (dirs1 ++ d :: dirs2) ->
  (forall d', d' ∈ dirs1 -> g_exit (_iter_font_files_in h d') = None) ->
  g_exit (_iter_font_files_in h d) = Some e ->
  (_installed_fonts h).2 = Raise e
  /\ walked (_installed_fonts h).1 = dirs1 ++ [d].
Proof.
  intros Hdirs Hbefore Hexit. unfold _installed_fonts. rewrite Hdirs.
  apply (populate_raises h dirs1 dirs2 d ∅ e Hbefore Hexit).
Qed.

End MoreProperties.

(** ** The extension test *)

Lemma ascii_lower_sep (a : ascii) :
  Ascii.eqb (ascii_lower a) "." = Ascii.eqb a "."
  /\ Ascii.eqb (ascii_lower a) "/" = Ascii.eqb a "/".
Proof. destruct a as [[] [] [] [] [] [] [] []]; vm_compute; split; reflexivity. Qed.

Lemma ascii_lower_idem (a : ascii) : ascii_lower (ascii_lower a) = ascii_lower a.
Proof. destruct a as [[] [] [] [] [] [] [] []]; vm_compute; reflexivity. Qed.

Lemma lower_idem (s : string) : lower (lower s) = lower s.
Proof.
  induction s as [| c s IH]; [reflexivity |].
  cbn [lower]. rewrite ascii_lower_idem, IH. reflexivity.
Qed.

Lemma lower_length (s : string) : String.length (lower s) = String.length s.
Proof. induction s as [| c s IH]; [reflexivity |]. cbn [lower String.length]. congruence. Qed.

Lemma rfind_from_lower_dot (s : string) (i : Z) :
  rfind_from "." (lower s) i = rfind_from "." s i.
Proof.
  revert i. induction s as [| c s IH]; intros i; [reflexivity |].
  cbn [lower rfind_from]. rewrite IH.
  rewrite (proj1 (ascii_lower_sep c)). reflexivity.
Qed.

Lemma rfind_from_lower_slash (s : string) (i : Z) :
  rfind_from "/" (lower s) i = rfind_from "/" s i.
Proof.
  revert i. induction s as [| c s IH]; intros i; [reflexivity |].
  cbn [lower rfind_from]. rewrite IH.
  rewrite (proj2 (ascii_lower_sep c)). reflexivity.
Qed.

Lemma get_lower (s : string) (n : nat) :
  String.get n (lower s) = ascii_lower <$> String.get n s.
Proof.
  revert n. induction s as [| c s IH]; intros n; [reflexivity |].
  cbn [lower String.get]. destruct n; [reflexivity | apply IH].
Qed.

Lemma has_stem_lower (p : string) (i n : nat) :
  posixpath.has_stem (lower p) i n = posixpath.has_stem p i n.
Proof.
  revert i. induction n as [| n IH]; intros i; [reflexivity |].
  cbn [posixpath.has_stem]. rewrite get_lower.
  destruct (String.get i p) as [c |]; cbn [fmap option_fmap option_map]; [| reflexivity].
  rewrite (proj1 (ascii_lower_sep c)), IH. reflexivity.
Qed.

Lemma substring_lower (s : string) (n m : nat) :
  String.substring n m (lower s) = lower (String.substring n m s).
Proof.
  revert n m. induction s as [| c s IH]; intros n m.
  - destruct n, m; reflexivity.
  - destruct n as [| n].
    + destruct m as [| m]; [reflexivity |].
      cbn [lower String.substring]. rewrite IH. reflexivity.
    + cbn [lower String.substring]. apply IH.
Qed.

(** [splitext] splits a name and its lower-case form at the same place. *)
Lemma splitext_lower (p : string) :
  posixpath.splitext (lower p)
  = (lower (posixpath.splitext p).1, lower (posixpath.splitext p).2).
Proof.
  unfold posixpath.splitext, rfind.
  rewrite rfind_from_lower_dot, rfind_from_lower_slash, has_stem_lower.
  destruct ((rfind_from "/" p 0 <? rfind_from "." p 0) && posixpath.has_stem p _ _).
  - cbn [fst snd]. rewrite !substring_lower, lower_length. reflexivity.
  - reflexivity.
Qed.

(** Names that differ only in the case of their letters are treated alike:
    both are font files for the scanner, or neither is. *)
Theorem font_filename_case_insensitive (name1 name2 : string) :
  lower name1 = lower name2 ->
  is_font_filename name1 = is_font_filename name2.
Proof.
  assert (H : forall name, is_font_filename (lower name) = is_font_filename name).
  { intros name. unfold is_font_filename. rewrite splitext_lower. cbn [snd].
    rewrite lower_idem. reflexivity. }
  intros Heq. rewrite <- (H name1), <- (H name2), Heq. reflexivity.
Qed.

Lemma font_filename_case_insensitive_witness :
  is_font_filename "Arial Bold.TtF" = is_font_filename "ARIAL bold.ttf"
  /\ is_font_filename "ARIAL bold.ttf" = true.
Proof.
  split; [| reflexivity].
  apply (font_filename_case_insensitive "Arial Bold.TtF" "ARIAL bold.ttf").
  reflexivity.
Defined.

(** ** The module as it stands *)

Lemma placeholder_family_name_raises (s : pyfile) :
  exists e, (family_name (D := placeholder) s).1 = Raise e.
Proof.
  unfold family_name, bind.
  destruct (_tables (D := placeholder) s) as [[tables | e] s1] eqn:Ht;
    [| eexists; reflexivity].
  destruct (_tables_ok (D := placeholder) s s1 tables Ht) as (records & _ & Hrec).
  destruct (Hrec "name") as [Hout Hin].
  destruct (classic_has_table records "name") as [Hyes | Hno].
  - destruct (Hin Hyes) as (table & _ & off & len_ & s0 & _ & Hb).
    discriminate Hb.
  - rewrite (Hout Hno). eexists. reflexivity.
Qed.

Lemma placeholder_descriptor_raises (h : host) (path : string) :
  exists e, descriptor_of (D := placeholder) h path = Raise e.
Proof.
  unfold descriptor_of. destruct (open_rb h path) as [data |]; [| eexists; reflexivity].
  destruct (placeholder_family_name_raises (mk_pyfile data 0 false)) as [e He].
  exists e. unfold font_key. apply bind_raises. exact He.
Qed.

Lemma placeholder_yields_nothing (h : host) (directory : string) :
  g_yields (_iter_font_files_in (D := placeholder) h directory) = [].
Proof.
  rewrite (proj1 (_iter_font_files_in_yields (D := placeholder) h directory)).
  destruct (g_yields _) as [| [key path] rest] eqn:Hy; [reflexivity |].
  destruct (scan_yields_inv (D := placeholder) h (walk_entries h directory) key path)
    as (entry & _ & _ & _ & Hd); [rewrite Hy; left |].
  destruct (placeholder_descriptor_raises h path) as [e He]. congruence.
Qed.

(** With the bodies the module has for [_TableFactory] and without
    [is_bold] and [is_italic] on [_Font], no font file yields a pair: a
    registry that is built is empty, and a call to [find] that has to build
    the registry raises, whatever the host and the arguments. *)
Theorem placeholder_registry_stays_empty (h : host) :
  (forall directory,
     g_yields (_iter_font_files_in (D := placeholder) h directory) = [])
  /\ (forall fonts,
        (_installed_fonts (D := placeholder) h).2 = Ok fonts -> fonts = ∅)
  /\ (forall (family_name : string) (is_bold is_italic : bool) (p : process),
        _font_files p = None ->
        exists e, (find (D := placeholder) h family_name is_bold is_italic p).1
                  = Raise e).
Proof.
  assert (Hempty : forall fonts,
            (_installed_fonts (D := placeholder) h).2 = Ok fonts -> fonts = ∅).
  { intros fonts Hbuilt. unfold _installed_fonts in Hbuilt.
    destruct (_font_directories (D := placeholder) h) as [dirs | e];
      [| discriminate Hbuilt].
    destruct (populate (D := placeholder) h dirs ∅) as [evs r] eqn:Hpop.
    cbn [snd] in Hbuilt. subst r.
    destruct (populate_ok (D := placeholder) _ _ _ _ _ Hpop) as (-> & _ & _).
    assert (Hs : scanned (D := placeholder) h dirs = []).
    { unfold scanned. clear Hpop. induction dirs as [| d dirs IH]; [reflexivity |].
      cbn [mbind list_bind]. rewrite placeholder_yields_nothing, IH. reflexivity. }
    rewrite Hs. reflexivity. }
  split; [apply placeholder_yields_nothing |]. split; [exact Hempty |].
  intros family_name is_bold is_italic p Hcache.
  destruct (find_builds (D := placeholder) h family_name is_bold is_italic p Hcache)
    as [_ Hres].
  destruct (_installed_fonts (D := placeholder) h).2 as [fonts | e] eqn:Hb.
  - destruct Hres as [-> _]. rewrite (Hempty fonts eq_refl).
    unfold getitem. rewrite lookup_empty. eexists. reflexivity.
  - destruct Hres as [-> _]. eexists. reflexivity.
Qed.

Lemma placeholder_registry_stays_empty_witness :
  (_installed_fonts (D := placeholder) Sample.fontless_mac).2 = Ok ∅
  /\ (exists e, (find (D := placeholder) Fixture.mac "Arial" false false
                   Fixture.new_process).1 = Raise e).
Proof.
  split.
  - destruct (_installed_fonts (D := placeholder) Sample.fontless_mac).2
      as [fonts | e] eqn:Hb; [| vm_compute in Hb; discriminate Hb].
    f_equal.
    apply (proj1 (proj2 (placeholder_registry_stays_empty Sample.fontless_mac))).
    exact Hb.
  - apply (proj2 (proj2 (placeholder_registry_stays_empty Fixture.mac))).
    reflexivity.
Defined.

Lemma win32_is_not_darwin (platform : string) :
  startswith platform "win32" = true -> startswith platform "darwin" = false.
Proof.
  destruct platform as [| c r]; [discriminate |].
  cbn [startswith]. destruct (Ascii.eqb_spec "w" c) as [<- | Hne];
    [reflexivity | discriminate].
Qed.

(** On Windows the enumeration of the font directories is not implemented:
    a call to [find] that has to build the registry raises
    [NotImplementedError], walks nothing and leaves the cache unset. *)
Theorem windows_not_implemented (h : host) (family_name : string)
    (is_bold is_italic : bool) (p : process) :
  startswith (sys_platform h) "win32" = true ->
  _font_files p = None ->
  find (D := placeholder) h family_name is_bold is_italic p
  = (Raise NotImplementedError, mk_process None (calls p)).
Proof.
  intros Hwin Hcache. unfold find, _installed_fonts, _font_directories.
  rewrite Hcache, (win32_is_not_darwin _ Hwin), Hwin.
  cbn [_windows_font_directories placeholder]. rewrite app_nil_r. reflexivity.
Qed.

Lemma windows_not_implemented_witness :
  find (D := placeholder) Sample.windows "Arial" false false Fixture.new_process
  = (Raise NotImplementedError, mk_process None (calls Fixture.new_process)).
Proof.
  apply (windows_not_implemented Sample.windows "Arial" false false
           Fixture.new_process); reflexivity.
Defined.

(** ** Instances of the further properties *)

Lemma short_header_raises_witness :
  let s := Fixture.fresh_stream Fixture.corrupt in
  (_fields s).1 = Raise StructError
  /\ (_table_count s).1 = Raise StructError
  /\ (_iter_table_records s).1 = Raise StructError
  /\ (_tables (D := Fixture.decoders) s).1 = Raise StructError
  /\ (family_name (D := Fixture.decoders) s).1 = Raise StructError
  /\ (font_key (D := Fixture.decoders) s).1 = Raise StructError.
Proof.
  apply (short_header_raises (D := Fixture.decoders)
           (Fixture.fresh_stream Fixture.corrupt)).
  - reflexivity.
  - vm_compute. lia.
Defined.

Lemma truncated_directory_raises_witness :
  let s := Fixture.fresh_stream Sample.truncated in
  exists steps,
    (_iter_table_records s).1 = Ok steps
    /\ yielded steps
       = map (table_record (f_data s)) (seq 0 (complete_entries (f_data s)))
    /\ steps !! complete_entries (f_data s) = Some (Raise StructError)
    /\ (forall tables s', _tables (D := Fixture.decoders) s <> (Ok tables, s'))
    /\ exists e, (family_name (D := Fixture.decoders) s).1 = Raise e.
Proof.
  apply (truncated_directory_raises (D := Fixture.decoders)
           (Fixture.fresh_stream Sample.truncated)).
  - reflexivity.
  - vm_compute. lia.
  - vm_compute. lia.
Defined.

Example truncated_family_name :
  complete_entries Sample.truncated = 1%nat
  /\ (family_name (D := Fixture.decoders) (Fixture.fresh_stream Sample.truncated)).1
     = Raise StructError.
Proof. vm_compute. split; reflexivity. Qed.

Lemma _tables_keys_witness :
  exists records,
    (_iter_table_records (Fixture.fresh_stream Sample.two_names)).1
    = Ok (map Ok records)
    /\ (forall tag,
          is_Some (({[ "name" := mk_BaseTable "name" 49 4 ]} : gmap string _BaseTable)
                   !! tag)
          <-> has_table records tag)
    /\ (size ({[ "name" := mk_BaseTable "name" 49 4 ]} : gmap string _BaseTable)
        <= length records)%nat.
Proof.
  apply (_tables_keys (D := Fixture.decoders) (Fixture.fresh_stream Sample.two_names)
           (mk_pyfile Sample.two_names 44 false)
           {[ "name" := mk_BaseTable "name" 49 4 ]}).
  vm_compute. reflexivity.
Defined.

(** Of two records with one tag the later one is kept. *)
Example two_names_family_name :
  (_iter_table_records (Fixture.fresh_stream Sample.two_names)).1
  = Ok [Ok ("name", 44, 5); Ok ("name", 49, 4)]
  /\ (family_name (D := Fixture.decoders) (Fixture.fresh_stream Sample.two_names)).1
     = Ok "Bold".
Proof. vm_compute. split; reflexivity. Qed.

Lemma darwin_font_directories_witness :
  exists home_dirs,
    _font_directories (D := placeholder) Sample.fontless_mac
    = Ok (["/Library/Fonts"; "/Network/Library/Fonts"; "/System/Library/Fonts"]
          ++ home_dirs)
    /\ home_dirs = [posixpath.join "/Users/u/" ["Library"; "Fonts"];
                    posixpath.join "/Users/u/" [".fonts"]]
    /\ (posixpath.isabs "/Users/u/" = true ->
        Forall (fun d => posixpath.isabs d = true) home_dirs).
Proof.
  apply (darwin_font_directories (D := placeholder) Sample.fontless_mac).
  reflexivity.
Defined.

Example fontless_mac_directories :
  _font_directories (D := placeholder) Sample.fontless_mac
  = Ok ["/Library/Fonts"; "/Network/Library/Fonts"; "/System/Library/Fonts";
        "/Users/u/Library/Fonts"; "/Users/u/.fonts"].
Proof. reflexivity. Qed.

Lemma empty_registry_is_cached_witness :
  let dirs := ["/Library/Fonts"; "/Network/Library/Fonts"; "/System/Library/Fonts";
               "/Users/u/Library/Fonts"; "/Users/u/.fonts"] in
  let r := find (D := placeholder) Sample.fontless_mac "Arial" false false
             Fixture.new_process in
  r = (Raise (KeyError (KFont ("Arial", false, false))),
       mk_process (Some ∅) (calls Fixture.new_process ++ map EvWalk dirs))
  /\ forall (h' : host) (family_name' : string) (is_bold' is_italic' : bool),
       find (D := placeholder) h' family_name' is_bold' is_italic' r.2
       = (Raise (KeyError (KFont (family_name', is_bold', is_italic'))), r.2).
Proof.
  apply (empty_registry_is_cached (D := placeholder) Sample.fontless_mac
           ["/Library/Fonts"; "/Network/Library/Fonts"; "/System/Library/Fonts";
            "/Users/u/Library/Fonts"; "/Users/u/.fonts"]
           "Arial" false false Fixture.new_process).
  - reflexivity.
  - intros d Hin.
    repeat (apply elem_of_cons in Hin as [-> | Hin]);
      [vm_compute; reflexivity .. | inversion Hin].
  - reflexivity.
Defined.

Lemma find_returns_scanned_font_witness :
  exists dirs d entry,
    _font_directories (D := Fixture.decoders) Fixture.mac = Ok dirs
    /\ d ∈ dirs /\ entry ∈ walk_entries Fixture.mac d
    /\ is_font_filename entry.2 = true
    /\ "/Library/Fonts/Old/ARIAL.TTF" = entry_path Fixture.mac entry
    /\ descriptor_of (D := Fixture.decoders) Fixture.mac "/Library/Fonts/Old/ARIAL.TTF"
       = Ok ("Arial", false, false).
Proof.
  apply (find_returns_scanned_font (D := Fixture.decoders) Fixture.mac
           "Arial" false false Fixture.new_process "/Library/Fonts/Old/ARIAL.TTF").
  - reflexivity.
  - vm_compute. reflexivity.
Defined.

Lemma scanned_font_is_found_witness :
  exists key path,
    descriptor_of (D := Fixture.decoders) Fixture.mac
      (entry_path Fixture.mac ("/Library/Fonts", "Arial.ttf")) = Ok key
    /\ ({[ ("Arial", false, false) := "/Library/Fonts/Old/ARIAL.TTF" ]} : registry)
       !! key = Some path
    /\ descriptor_of (D := Fixture.decoders) Fixture.mac path = Ok key.
Proof.
  apply (scanned_font_is_found (D := Fixture.decoders) Fixture.mac
           {[ ("Arial", false, false) := "/Library/Fonts/Old/ARIAL.TTF" ]}
           ["/Library/Fonts"; "/Network/Library/Fonts"; "/System/Library/Fonts";
            "/Users/u/Library/Fonts"; "/Users/u/.fonts"]
           "/Library/Fonts" ("/Library/Fonts", "Arial.ttf")).
  - vm_compute. reflexivity.
  - reflexivity.
  - left.
  - assert (Hw : walk_entries Fixture.mac "/Library/Fonts"
                 = [("/Library/Fonts", "Arial.ttf"); ("/Library/Fonts", "README.txt");
                    ("/Library/Fonts/Old", "ARIAL.TTF"); ("/Library/Fonts/Old", ".otf")])
      by (vm_compute; reflexivity).
    rewrite Hw. left.
  - reflexivity.
Defined.

Lemma failed_scan_stops_build_witness :
  (_installed_fonts (D := Fixture.decoders) Sample.mac_with_vanished).2
  = Raise (IOError "/Network/Library/Fonts/gone.otf")
  /\ walked (_installed_fonts (D := Fixture.decoders) Sample.mac_with_vanished).1
     = ["/Library/Fonts"] ++ ["/Network/Library/Fonts"].
Proof.
  apply (failed_scan_stops_build (D := Fixture.decoders) Sample.mac_with_vanished
           ["/Library/Fonts"] ["/System/Library/Fonts"] "/Network/Library/Fonts"
           (IOError "/Network/Library/Fonts/gone.otf")).
  - reflexivity.
  - intros d Hin. apply list_elem_of_singleton in Hin as ->. vm_compute. reflexivity.
  - vm_compute. reflexivity.
Defined.

(** The file that could not be opened has no close; the one read before it
    was closed. *)
Example vanished_font_calls :
  (_installed_fonts (D := Fixture.decoders) Sample.mac_with_vanished).1
  = [EvWalk "/Library/Fonts"; EvOpen "/Library/Fonts/Arial.ttf";
     EvClose "/Library/Fonts/Arial.ttf";
     EvWalk "/Network/Library/Fonts"; EvOpen "/Network/Library/Fonts/gone.otf"].
Proof. vm_compute. reflexivity. Qed.

(** ** Records that share a tag *)

Section SharedTags.

Context `{D : Decoders}.

Lemma dict_of_records_last (steps : list (result (string * Z * Z)))
    (acc tables : gmap string Table) (s s' : pyfile) :
  dict_of_records steps acc s = (Ok tables, s') ->
  exists records,
    steps = map Ok records
    /\ forall tag table,
         tables !! tag = Some table ->
         (~ has_table records tag /\ acc !! tag = Some table)
         \/ exists pre off len_ post s0,
              records = pre ++ (tag, off, len_) :: post
              /\ ~ has_table post tag
              /\ (_TableFactory tag off len_ s0).1 = Ok table.
Proof.
  revert acc s. induction steps as [| step steps IH]; intros acc s Hrun.
  - simpl in Hrun. injection Hrun as -> _. exists []. split; [reflexivity |].
    intros tag table Hl. left. split; [| exact Hl].
    intros (off & len_ & Hin). inversion Hin.
  - destruct step as [[[tag0 off0] len0] | e]; simpl in Hrun; [| discriminate Hrun].
    unfold bind in Hrun.
    destruct (_TableFactory tag0 off0 len0 s) as [[t | e] s1] eqn:Hfac;
      [| discriminate Hrun].
    destruct (IH _ _ Hrun) as (records & -> & Hrec).
    exists ((tag0, off0, len0) :: records). split; [reflexivity |].
    intros tag table Hl.
    destruct (Hrec tag table Hl)
      as [[Hno Hacc] | (pre & off & len_ & post & s0 & -> & Hpost & Hb)].
    + destruct (decide (tag0 = tag)) as [-> | Hne].
      * rewrite lookup_insert_eq in Hacc. injection Hacc as <-.
        right. exists [], off0, len0, records, s.
        split; [reflexivity |]. split; [exact Hno |]. rewrite Hfac. reflexivity.
      * rewrite lookup_insert_ne in Hacc by exact Hne.
        left. split; [| exact Hacc].
        intros (off & len_ & Hin). apply elem_of_cons in Hin as [Heq | Hin].
        -- injection Heq as -> _ _. congruence.
        -- apply Hno. exists off, len_. exact Hin.
    + right. exists ((tag0, off0, len0) :: pre), off, len_, post, s0.
      split; [reflexivity |]. split; [exact Hpost | exact Hb].
Qed.

(** When several records of the directory have one tag, the table map keeps
    the object built for the last of them. *)
Theorem _tables_last_record_wins (s s' : pyfile) (tables : gmap string Table)
    (tag : string) (table : Table) :
  _tables s = (Ok tables, s') ->
  tables !! tag = Some table ->
  exists pre off len_ post s0,
    (_iter_table_records s).1 = Ok (map Ok (pre ++ (tag, off, len_) :: post))
    /\ ~ has_table post tag
    /\ (_TableFactory tag off len_ s0).1 = Ok table.
Proof.
  unfold _tables, bind. intros Hrun Hl.
  destruct (_iter_table_records s) as [[steps | e] s1]; [| discriminate Hrun].
  destruct (dict_of_records_last _ _ _ _ _ Hrun) as (records & -> & Hrec).
  destruct (Hrec tag table Hl)
    as [[_ Hacc] | (pre & off & len_ & post & s0 & -> & Hpost & Hb)].
  - rewrite lookup_empty in Hacc. discriminate Hacc.
  - exists pre, off, len_, post, s0. auto.
Qed.

End SharedTags.

Lemma _tables_last_record_wins_witness :
  exists pre off len_ post s0,
    (_iter_table_records (Fixture.fresh_stream Sample.two_names)).1
    = Ok (map Ok (pre ++ ("name", off, len_) :: post))
    /\ ~ has_table post "name"
    /\ (_TableFactory (Decoders := Fixture.decoders) "name" off len_ s0).1
       = Ok (mk_BaseTable "name" 49 4).
Proof.
  apply (_tables_last_record_wins (D := Fixture.decoders)
           (Fixture.fresh_stream Sample.two_names)
           (mk_pyfile Sample.two_names 44 false)
           {[ "name" := mk_BaseTable "name" 49 4 ]} "name" (mk_BaseTable "name" 49 4)).
  - vm_compute. reflexivity.
  - vm_compute. reflexivity.
Defined.

(** ** The table map is not built, and later font files are not reached *)

(** C7, as stated, fails.  The directory of this font holds one record,
    ['head'], and no ['name'] record; with [_TableFactory] as the module has
    it, [family_name] raises [NotImplementedError] from the factory, not
    [KeyError] for ['name'].  On a font that has a ['name'] record the
    factory raises in the same way, so nothing is delegated. *)
Lemma name_lookup_not_reached :
  let s := Fixture.fresh_stream Fixture.nameless in
  (_iter_table_records s).1 = Ok [Ok ("head", 28, 2)]
  /\ ~ has_table [("head", 28, 2)] "name"
  /\ (family_name (D := placeholder) s).1 = Raise NotImplementedError
  /\ (family_name (D := placeholder) s).1 <> Raise (KeyError (KStr "name"))
  /\ (_iter_table_records (Fixture.fresh_stream Fixture.arial)).1
     = Ok [Ok ("name", 28, 5)]
  /\ (family_name (D := placeholder) (Fixture.fresh_stream Fixture.arial)).1
     = Raise NotImplementedError.
Proof.
  cbv zeta. split; [vm_compute; reflexivity |]. split.
  - intros (off & len_ & Hin). apply list_elem_of_singleton in Hin. discriminate Hin.
  - split; [vm_compute; reflexivity |].
    split; [vm_compute; discriminate |].
    split; vm_compute; reflexivity.
Qed.

(** C8, as stated, fails.  [Arial.ttf] has a font extension and is listed
    by the walk, but the scan ends on [bad.ttf], listed before it, and never
    opens it.  With the bodies the module has for its unimplemented parts,
    the scan of a directory with two well-formed font files opens the first
    one only, yields nothing and ends with [NotImplementedError]. *)
Lemma later_font_file_not_opened :
  let g := _iter_font_files_in (D := Fixture.decoders) Fixture.mac_with_corrupt
             "/Library/Fonts" in
  let g0 := _iter_font_files_in (D := placeholder) Fixture.mac "/Library/Fonts" in
  List.filter (fun entry => is_font_filename entry.2)
    (walk_entries Fixture.mac_with_corrupt "/Library/Fonts")
  = [("/Library/Fonts", "bad.ttf"); ("/Library/Fonts", "Arial.ttf")]
  /\ opened (g_calls g) = ["/Library/Fonts/bad.ttf"]
  /\ g_yields g = []
  /\ ~ In (entry_path Fixture.mac_with_corrupt ("/Library/Fonts", "Arial.ttf"))
        (opened (g_calls g))
  /\ List.filter (fun entry => is_font_filename entry.2)
       (walk_entries Fixture.mac "/Library/Fonts")
     = [("/Library/Fonts", "Arial.ttf"); ("/Library/Fonts/Old", "ARIAL.TTF")]
  /\ opened (g_calls g0) = ["/Library/Fonts/Arial.ttf"]
  /\ g_yields g0 = []
  /\ g_exit g0 = Some NotImplementedError.
Proof.
  cbv zeta. split; [vm_compute; reflexivity |].
  split; [vm_compute; reflexivity |]. split; [vm_compute; reflexivity |].
  split.
  - assert (Ho : opened (g_calls (_iter_font_files_in (D := Fixture.decoders)
                                    Fixture.mac_with_corrupt "/Library/Fonts"))
                 = ["/Library/Fonts/bad.ttf"]) by (vm_compute; reflexivity).
    assert (Hp : entry_path Fixture.mac_with_corrupt ("/Library/Fonts", "Arial.ttf")
                 = "/Library/Fonts/Arial.ttf") by (vm_compute; reflexivity).
    rewrite Ho, Hp. intros [Heq | []]. discriminate Heq.
  - repeat split; vm_compute; reflexivity.
Qed.
